(** * Dashboard de Análisis Financiero: WACC/ROIC pipeline of [app.py]

    A shallow embedding of the metric-computation core of [app.py]:
    [calcular_wacc_y_roic], [obtener_datos_financieros] and the ticker
    loop and result filter of [main].

    Modelling conventions.
    - Finite numbers are exact rationals ([Q]); rounding of binary floats
      is not modelled.  The values of [stock.info] and the defaults are
      Python numbers: [a / b] on them raises [ZeroDivisionError] when
      [b == 0], and [None / b] raises [TypeError].  A value read from a
      DataFrame is a [numpy.float64], taken to be finite; a division by
      such a value, or by a sum with such a value, never raises: by zero
      it gives NaN or an infinity ([numero]).
    - [stock.info] is a dict: a [gmap] from key to value, split by the type
      of the value (numbers, texts).  A statement ([balance_sheet],
      [financials], [cashflow]) is a DataFrame read only through
      [df.loc[label].iloc[0] if label in df.index else default], so it is
      the [gmap] from the row label to the value of its first column.
    - The data provider ([yfinance]) is an effect: a fetch reads and changes
      an abstract [world] and either raises or yields the four mappings.
    - [try: ... except Exception] is a computation in the exception monad
      [exc] whose [Lanza] result is handled by the caller of the body.
    - [time.sleep] and the progress widgets have no effect on the values
      computed and are left out. *)

From Stdlib Require Import QArith Lqa Ascii String.
From stdpp Require Import gmap strings list.

Local Open Scope string_scope.
Local Open Scope nat_scope.
Local Open Scope list_scope.

(** ** Exceptions and the exception monad *)

Inductive excepcion : Type :=
| ZeroDivisionError
| TypeError
| ErrorProveedor (causa : string).

Inductive exc (A : Type) : Type :=
| Lanza (e : excepcion)
| Devuelve (a : A).
Arguments Lanza {A} e.
Arguments Devuelve {A} a.

#[global] Instance exc_ret : MRet exc := λ A a, Devuelve a.

#[global] Instance exc_bind : MBind exc := λ A B k m,
  match m with
  | Lanza e => Lanza e
  | Devuelve a => k a
  end.

(** ** Python arithmetic on numbers *)

(** [x != 0] *)
Definition distinto_de_cero (x : Q) : bool := negb (Qeq_bool x 0).

(** [a / b] on two numbers *)
Definition py_div (a b : Q) : exc Q :=
  if Qeq_bool b 0 then Lanza ZeroDivisionError else Devuelve (a / b)%Q.

(** [a / b] where an operand may be [None] *)
Definition py_truediv (a b : option Q) : exc Q :=
  match a, b with
  | Some x, Some y => py_div x y
  | _, _ => Lanza TypeError
  end.

(** A float that need not be finite. *)
Inductive numero : Type :=
| Fin (q : Q)
| Inf (positivo : bool)
| NaN.

(** [a > b] on finite numbers *)
Definition mayor_que (a b : Q) : bool :=
  match (a ?= b)%Q with
  | Gt => true
  | _ => false
  end.

(** numpy's [a / b] on finite numbers: 0 / 0 is NaN and x / 0 is the
    infinity of the sign of x (a zero sum of two numbers that are not
    both zero is +0.0). *)
Definition np_div (a b : Q) : numero :=
  if Qeq_bool b 0
  then (if Qeq_bool a 0 then NaN else Inf (mayor_que a 0))
  else Fin (a / b).

(** [a / b] where [b] is a [numpy.float64] when [numpy] holds, and [a]
    and [b] are Python numbers otherwise. *)
Definition dividir (numpy : bool) (a b : Q) : exc numero :=
  if numpy then Devuelve (np_div a b) else (q ← py_div a b; mret (Fin q)).

(** [x * y], [x + y], [- x], [x - y] and [x > y] on floats *)
Definition num_mul (x y : numero) : numero :=
  match x, y with
  | Fin a, Fin b => Fin (a * b)
  | NaN, _ | _, NaN => NaN
  | Inf s, Fin b | Fin b, Inf s =>
      if Qeq_bool b 0 then NaN else Inf (if mayor_que b 0 then s else negb s)
  | Inf s1, Inf s2 => Inf (eqb s1 s2)
  end.

Definition num_add (x y : numero) : numero :=
  match x, y with
  | Fin a, Fin b => Fin (a + b)
  | NaN, _ | _, NaN => NaN
  | Inf s, Fin _ | Fin _, Inf s => Inf s
  | Inf s1, Inf s2 => if eqb s1 s2 then Inf s1 else NaN
  end.

Definition num_neg (x : numero) : numero :=
  match x with
  | Fin a => Fin (- a)
  | Inf s => Inf (negb s)
  | NaN => NaN
  end.

Definition num_sub (x y : numero) : numero := num_add x (num_neg y).

Definition num_gt (x y : numero) : bool :=
  match x, y with
  | Fin a, Fin b => mayor_que a b
  | NaN, _ | _, NaN => false
  | Inf s, Fin _ => s
  | Fin _, Inf s => negb s
  | Inf s1, Inf s2 => s1 && negb s2
  end.

(** The value of [a / b if b != 0 else defecto], which never raises. *)
Definition cociente_o (a b defecto : Q) : Q :=
  if distinto_de_cero b then (a / b)%Q else defecto.

(** Truth value of a number-or-[None]: [None] and zero are false. *)
Definition verdadero (o : option Q) : bool :=
  match o with
  | None => false
  | Some x => distinto_de_cero x
  end.

(** ** Raw financial data of one ticker *)

Record RawFinancials : Type := {
  info : gmap string Q;
  info_texto : gmap string string;
  balance_sheet : gmap string Q;
  financials : gmap string Q;
  cashflow : gmap string Q
}.

(** [d.get(clave, defecto)] *)
Definition dict_get {V : Type} (d : gmap string V) (clave : string) (defecto : V) : V :=
  default defecto (d !! clave).

(** [df.loc[fila].iloc[0] if fila in df.index else defecto] *)
Definition primera_columna (df : gmap string Q) (fila : string) (defecto : Q) : Q :=
  default defecto (df !! fila).

(** ** calcular_wacc_y_roic *)

(** The local variables of [calcular_wacc_y_roic] at its [return]. *)
Record Calculo : Type := {
  market_cap : Q;
  beta : Q;
  ke : Q;
  deuda_total : Q;
  efectivo : Q;
  patrimonio : Q;
  gastos_intereses : Q;
  ebt : Q;
  impuestos : Q;
  ebit : Q;
  kd : Q;
  tasa_impuestos : Q;
  total_capital : Q;
  wacc : numero;
  nopat : Q;
  capital_invertido : Q;
  roic : Q;
  diferencia_roic_wacc : numero;
  creando_valor : bool
}.

(** Line 61, given the two quotients by the total capital. *)
Definition combinar_wacc (peso_e peso_d : numero) (ke kd tasa_impuestos : Q) : numero :=
  num_add (num_mul peso_e (Fin ke))
          (num_mul (num_mul peso_d (Fin kd)) (Fin (1 - tasa_impuestos))).

(** The body of the [try] block once the data has been fetched
    (lines 33-72), up to the values bound at the [return].  [deuda_total]
    is a [numpy.float64] when the row "Total Debt" is present and the
    Python [0] otherwise, and so is the total capital; the three guarded
    divisions never divide by zero. *)
Definition calcular_cuerpo (d : RawFinancials) : exc Calculo :=
  let market_cap := dict_get (info d) "marketCap" 0%Q in
  let beta := dict_get (info d) "beta" 1%Q in
  let rf := 0.02%Q in
  let equity_risk_premium := 0.05%Q in
  let ke := (rf + beta * equity_risk_premium)%Q in
  let deuda_total := primera_columna (balance_sheet d) "Total Debt" 0%Q in
  let deuda_numpy := bool_decide (is_Some (balance_sheet d !! "Total Debt")) in
  let efectivo := primera_columna (balance_sheet d) "Cash And Cash Equivalents" 0%Q in
  let patrimonio := primera_columna (balance_sheet d) "Common Stock Equity" 0%Q in
  let gastos_intereses := primera_columna (financials d) "Interest Expense" 0%Q in
  let ebt := primera_columna (financials d) "Ebt" 0%Q in
  let impuestos := primera_columna (financials d) "Income Tax Expense" 0%Q in
  let ebit := primera_columna (financials d) "EBIT" 0%Q in
  (kd ← (if distinto_de_cero deuda_total
              then py_div gastos_intereses deuda_total
              else Devuelve 0%Q);
   tasa_impuestos ← (if distinto_de_cero ebt
                          then py_div impuestos ebt
                          else Devuelve 0.21%Q);
   let total_capital := (market_cap + deuda_total)%Q in
   peso_e ← dividir deuda_numpy market_cap total_capital;
   peso_d ← dividir deuda_numpy deuda_total total_capital;
   let wacc := combinar_wacc peso_e peso_d ke kd tasa_impuestos in
   let nopat := (ebit * (1 - tasa_impuestos))%Q in
   let capital_invertido := (patrimonio + (deuda_total - efectivo))%Q in
   roic ← (if distinto_de_cero capital_invertido
                then py_div nopat capital_invertido
                else Devuelve 0%Q);
   let diferencia_roic_wacc := num_sub (Fin roic) wacc in
   let creando_valor := num_gt (Fin roic) wacc in
   Devuelve {|
     market_cap := market_cap; beta := beta; ke := ke;
     deuda_total := deuda_total; efectivo := efectivo;
     patrimonio := patrimonio; gastos_intereses := gastos_intereses;
     ebt := ebt; impuestos := impuestos; ebit := ebit; kd := kd;
     tasa_impuestos := tasa_impuestos; total_capital := total_capital;
     wacc := wacc; nopat := nopat;
     capital_invertido := capital_invertido; roic := roic;
     diferencia_roic_wacc := diferencia_roic_wacc;
     creando_valor := creando_valor |}).

(** The module-level parameters [Rf], [Rm], [Tc], assigned by [main]
    from the sidebar inputs. *)
Record Parametros : Type := {
  Rf : Q;
  Rm : Q;
  Tc : Q
}.

(** The triple [wacc, roic, diferencia_roic_wacc] returned to the caller;
    [None, None, None] from the [except] branch. *)
Definition Terna : Type := option numero * option Q * option numero.

Definition terna_de (r : exc Calculo) : Terna :=
  match r with
  | Devuelve c => (Some (wacc c), Some (roic c), Some (diferencia_roic_wacc c))
  | Lanza _ => (None, None, None)
  end.

(** ** obtener_datos_financieros *)

(** The dict returned on success (lines 125-149). *)
Record Registro : Type := {
  Ticker : string;
  Nombre : string;
  Sector : string;
  Pais : string;
  Industria : string;
  Precio : option Q;
  P_E : option Q;
  P_B : option Q;
  P_FCF : option Q;
  Dividend_Year : option Q;
  Dividend_Yield : option Q;
  Payout_Ratio : option Q;
  ROA : option Q;
  ROE : option Q;
  Current_Ratio : option Q;
  Quick_Ratio : option Q;
  LtDebt_Eq : option Q;
  Debt_Eq : option Q;
  Oper_Margin : option Q;
  Profit_Margin : option Q;
  WACC : option numero;
  ROIC : option Q;
  Creacion_de_Valor : option numero
}.

(** A result dict: the full record, or [{"Ticker": ticker, "Error": str(e)}]. *)
Inductive TickerResult : Type :=
| Exito (r : Registro)
| Fallo (ticker : string) (error : excepcion).

(** ["Error" in d] *)
Definition tiene_error (d : TickerResult) : bool :=
  match d with
  | Exito _ => false
  | Fallo _ _ => true
  end.

(** Lines 118-120:
    [pfcf = price / (fcf / shares) if fcf and shares else None]. *)
Definition calcular_pfcf (stock : RawFinancials) : exc (option Q) :=
  let price := info stock !! "currentPrice" in
  let fcf := cashflow stock !! "Free Cash Flow" in
  let shares := info stock !! "sharesOutstanding" in
  if verdadero fcf && verdadero shares
  then (por_accion ← py_truediv fcf shares;
        pfcf ← py_truediv price (Some por_accion);
        mret (Some pfcf))
  else mret None.

(** Lines 88-116 and 125-149: the fields read from [info] and the dict
    built from them, the P/FCF and the triple of [calcular_wacc_y_roic]. *)
Definition registro (ticker : string) (stock : RawFinancials)
    (pfcf : option Q) (t : Terna) : Registro :=
  {| Ticker := ticker;
     Nombre := dict_get (info_texto stock) "longName" ticker;
     Sector := dict_get (info_texto stock) "sector" "N/D";
     Pais := dict_get (info_texto stock) "country" "N/D";
     Industria := dict_get (info_texto stock) "industry" "N/D";
     Precio := info stock !! "currentPrice";
     P_E := info stock !! "trailingPE";
     P_B := info stock !! "priceToBook";
     P_FCF := pfcf;
     Dividend_Year := info stock !! "dividendRate";
     Dividend_Yield := info stock !! "dividendYield";
     Payout_Ratio := info stock !! "payoutRatio";
     ROA := info stock !! "returnOnAssets";
     ROE := info stock !! "returnOnEquity";
     Current_Ratio := info stock !! "currentRatio";
     Quick_Ratio := info stock !! "quickRatio";
     LtDebt_Eq := info stock !! "longTermDebtToEquity";
     Debt_Eq := info stock !! "debtToEquity";
     Oper_Margin := info stock !! "operatingMargins";
     Profit_Margin := info stock !! "profitMargins";
     WACC := t.1.1;
     ROIC := t.1.2;
     Creacion_de_Valor := t.2 |}.

(** ** The ticker list of [main] (line 175), on ASCII text *)

(** [str.isspace] on an ASCII character *)
Definition es_espacio (c : ascii) : bool :=
  let n := nat_of_ascii c in
  (((9 <=? n) && (n <=? 13)) || ((28 <=? n) && (n <=? 32)))%nat.

(** [str.upper] on an ASCII character *)
Definition mayuscula (c : ascii) : ascii :=
  let n := nat_of_ascii c in
  if ((97 <=? n) && (n <=? 122))%nat then ascii_of_nat (n - 32) else c.

Fixpoint upper (s : string) : string :=
  match s with
  | EmptyString => EmptyString
  | String c s' => String (mayuscula c) (upper s')
  end.

Fixpoint lstrip (s : string) : string :=
  match s with
  | EmptyString => EmptyString
  | String c s' => if es_espacio c then lstrip s' else s
  end.

Fixpoint rstrip (s : string) : string :=
  match s with
  | EmptyString => EmptyString
  | String c s' =>
      match rstrip s' with
      | EmptyString => if es_espacio c then EmptyString else String c EmptyString
      | r => String c r
      end
  end.

Definition strip (s : string) : string := rstrip (lstrip s).

(** [s.split(sep)] for a one-character separator *)
Fixpoint split (sep : ascii) (s : string) : list string :=
  match s with
  | EmptyString => [EmptyString]
  | String c s' =>
      if decide (c = sep) then EmptyString :: split sep s'
      else match split sep s' with
           | [] => [String c EmptyString]
           | campo :: resto => String c campo :: resto
           end
  end.

(** [[t.strip().upper() for t in tickers_input.split(",") if t.strip()][:max_tickers]] *)
Definition tickers_de (tickers_input : string) (max_tickers : nat) : list string :=
  take max_tickers
    ((λ t, upper (strip t)) <$>
       filter (λ t, strip t ≠ EmptyString) (split "," tickers_input)).

(** ** The result dict of [main]: insertion-ordered, keyed by ticker *)

(** [d[k] = v] on an insertion-ordered dict: an existing key keeps its
    position and takes the new value, a new key goes to the end. *)
Fixpoint dict_set {V : Type} (k : string) (v : V) (d : list (string * V))
    : list (string * V) :=
  match d with
  | [] => [(k, v)]
  | (k', v') :: d' =>
      if decide (k = k') then (k, v) :: d' else (k', v') :: dict_set k v d'
  end.

(** [d[k]] *)
Fixpoint dict_lookup {V : Type} (k : string) (d : list (string * V)) : option V :=
  match d with
  | [] => None
  | (k', v') :: d' => if decide (k = k') then Some v' else dict_lookup k d'
  end.

(** [list(d.values())] *)
Definition values {V : Type} (d : list (string * V)) : list V := snd <$> d.

(** [range(0, stop, step)] *)
Definition rango (stop step : nat) : list nat :=
  (λ k, k * step) <$> seq 0 ((stop + step - 1) `div` step).

(** [l[a:b]] for [a <= b] *)
Definition rebanada {A : Type} (l : list A) (a b : nat) : list A :=
  take (b - a) (drop a l).

Definition batch_size : nat := 10.

(** What a run of the analysis shows below the button. *)
Inductive salida : Type :=
| Advertencia        (* st.warning("Por favor ingresa al menos un ticker") *)
| ErrorSinDatos      (* st.error("No se pudo obtener datos válidos para ningún ticker") *)
| Tabla (df : list Registro) (* pd.DataFrame(datos_validos) *)
| Nada.              (* [resultados] empty: nothing is shown *)

(** [[d for d in datos if "Error" not in d]] *)
Fixpoint validos (datos : list TickerResult) : list Registro :=
  match datos with
  | [] => []
  | Exito r :: resto => r :: validos resto
  | Fallo _ _ :: resto => validos resto
  end.

(** Lines 204-213: the result filter of [main]. *)
Definition mostrar (resultados : list (string * TickerResult)) : salida :=
  match resultados with
  | [] => Nada
  | _ =>
      let datos := values resultados in
      let datos_validos := validos datos in
      match datos_validos with
      | [] => ErrorSinDatos
      | _ => Tabla datos_validos
      end
  end.

(** ** The value-creation colour of the chart *)

(** Rounding to the nearest integer, ties to even: the rounding of
    [f"{x:.2%}"], on the exact value. *)
Definition redondear (q : Q) : Z :=
  let n := Qnum q in
  let d := Z.pos (Qden q) in
  let piso := (n / d)%Z in
  let resto := (n mod d)%Z in
  match (2 * resto ?= d)%Z with
  | Lt => piso
  | Gt => (piso + 1)%Z
  | Eq => if Z.even piso then piso else (piso + 1)%Z
  end.

(** A cell of a percentage column after lines 219-222
    ([f"{x:.2%}" if pd.notnull(x) else "N/D"]), as the number that
    [float(cell.rstrip("%"))] reads back from it; [None] stands for
    "N/D". *)
Definition celda_porcentaje (x : option numero) : option numero :=
  match x with
  | None | Some NaN => None
  | Some (Inf s) => Some (Inf s)
  | Some (Fin q) => Some (Fin (inject_Z (redondear (q * 100 * 100)) / 100))
  end.

(** Truth value of a float-or-[None]. *)
Definition verdadero_num (o : option numero) : bool :=
  match o with
  | None => false
  | Some (Fin q) => distinto_de_cero q
  | Some _ => true
  end.

Inductive color : Type := green | red.

(** Lines 290-295: the colour of the ROIC bar of a row, when the row gets
    a bar. *)
Definition color_de_fila (row : Registro) : option color :=
  let wacc := celda_porcentaje (WACC row) in
  let roic := celda_porcentaje (Fin <$> ROIC row) in
  if verdadero_num wacc && verdadero_num roic
  then match wacc, roic with
       | Some w, Some r => Some (if num_gt r w then green else red)
       | _, _ => None
       end
  else None.

(** The message under the chart of the selected company. *)
Inductive mensaje : Type :=
| creando_valor_ROIC_mayor_que_WACC
| destruyendo_valor_ROIC_menor_que_WACC
| datos_insuficientes.

(** Lines 379-393: [st.success], [st.error] or [st.warning] for the row
    [empresa] of the formatted table. *)
Definition mensaje_de_empresa (empresa : Registro) : mensaje :=
  match celda_porcentaje (Fin <$> ROIC empresa), celda_porcentaje (WACC empresa) with
  | Some roic_val, Some wacc_val =>
      if num_gt roic_val wacc_val
      then creando_valor_ROIC_mayor_que_WACC
      else destruyendo_valor_ROIC_menor_que_WACC
  | _, _ => datos_insuficientes
  end.

(** ** The functions that fetch *)

Section Proveedor.

(** The state of the outside world and [yf.Ticker(ticker)] with the
    statements read from it: the data or the exception raised, and the
    world after the fetch. *)
Context {mundo : Type}.
Variable yf_Ticker : string → mundo → exc RawFinancials * mundo.

(** [calcular_wacc_y_roic(ticker)].  The parameters [g] are the globals
    in scope; the body never reads them.  Any exception of the body
    ends in the [except] branch, which returns [None, None, None]. *)
Definition calcular_wacc_y_roic (g : Parametros) (ticker : string) (w : mundo)
    : Terna * mundo :=
  let empresa := yf_Ticker ticker w in
  (terna_de (empresa.1 ≫= calcular_cuerpo), empresa.2).

(** [obtener_datos_financieros(ticker)] *)
Definition obtener_datos_financieros (g : Parametros) (ticker : string) (w : mundo)
    : TickerResult * mundo :=
  let stock := yf_Ticker ticker w in
  match stock.1 ≫= (λ s, pfcf ← calcular_pfcf s; mret (s, pfcf)) with
  | Lanza e => (Fallo ticker e, stock.2)
  | Devuelve (s, pfcf) =>
      let t := calcular_wacc_y_roic g ticker stock.2 in
      (Exito (registro ticker s pfcf t.1), t.2)
  end.

(** The inner loop of [main] (lines 192-196) over one batch. *)
Fixpoint procesar_lote (g : Parametros) (batch_tickers : list string)
    (resultados : list (string * TickerResult)) (w : mundo)
    : list (string * TickerResult) * mundo :=
  match batch_tickers with
  | [] => (resultados, w)
  | t :: resto =>
      let r := obtener_datos_financieros g t w in
      procesar_lote g resto (dict_set t r.1 resultados) r.2
  end.

(** The outer loop of [main] (lines 188-190) over the batch starts. *)
Fixpoint procesar_lotes (g : Parametros) (tickers : list string)
    (inicios : list nat) (resultados : list (string * TickerResult)) (w : mundo)
    : list (string * TickerResult) * mundo :=
  match inicios with
  | [] => (resultados, w)
  | batch_start :: resto =>
      let batch_end := (batch_start + batch_size) `min` length tickers in
      let batch_tickers := rebanada tickers batch_start batch_end in
      let r := procesar_lote g batch_tickers resultados w in
      procesar_lotes g tickers resto r.1 r.2
  end.

(** Lines 182-196: [resultados] after the two loops. *)
Definition analizar (g : Parametros) (tickers : list string) (w : mundo)
    : list (string * TickerResult) * mundo :=
  procesar_lotes g tickers (rango (length tickers) batch_size) [] w.

(** [main] when the button is pressed, up to the DataFrame of line 213.
    The three percentages are the sidebar inputs stored in the globals. *)
Definition main (rf_pct rm_pct tc_pct : Q) (tickers_input : string)
    (max_tickers : nat) (w : mundo) : salida * mundo :=
  let g := {| Rf := (rf_pct / 100)%Q; Rm := (rm_pct / 100)%Q; Tc := (tc_pct / 100)%Q |} in
  let tickers := tickers_de tickers_input max_tickers in
  match tickers with
  | [] => (Advertencia, w)
  | _ =>
      let r := analizar g tickers w in
      (mostrar r.1, r.2)
  end.

(** The calls of [obtener_datos_financieros] made for a ticker list, in
    order: each ticker with the result of processing it in the world
    left by the tickers before it. *)
Fixpoint traza (g : Parametros) (tickers : list string) (w : mundo)
    : list (string * TickerResult) :=
  match tickers with
  | [] => []
  | t :: resto =>
      let r := obtener_datos_financieros g t w in
      (t, r.1) :: traza g resto r.2
  end.

Fixpoint mundo_tras (g : Parametros) (tickers : list string) (w : mundo) : mundo :=
  match tickers with
  | [] => w
  | t :: resto => mundo_tras g resto (obtener_datos_financieros g t w).2
  end.

End Proveedor.

(** ** Reading a list of tickers and a trace *)

(** The distinct elements of a list, each at the place of its first
    occurrence. *)
Fixpoint primeras (l : list string) : list string :=
  match l with
  | [] => []
  | x :: l' => x :: filter (λ y, y ≠ x) (primeras l')
  end.

(** The value paired with the last occurrence of [k]. *)
Fixpoint ultimo {V : Type} (k : string) (l : list (string * V)) : option V :=
  match l with
  | [] => None
  | (k', v) :: l' =>
      match ultimo k l' with
      | Some x => Some x
      | None => if decide (k = k') then Some v else None
      end
  end.

(** The dict obtained by the assignments [d[k] = v] of a trace, in order. *)
Definition dict_de {V : Type} (l : list (string * V)) (d : list (string * V))
    : list (string * V) :=
  fold_left (λ acc p, dict_set p.1 p.2 acc) l d.

(** ** The status text and the progress bar of the loop *)

(** What one iteration shows: [f"... {t} ({batch_start + i + 1}/{len(tickers)})..."]
    in the status text (line 193) and
    [(batch_start + i + 1) / len(tickers)] in the progress bar (line 195). *)
Record Aviso : Type := {
  aviso_ticker : string;
  aviso_posicion : nat;
  aviso_total : nat;
  aviso_progreso : Q
}.

(** [enumerate(l)], counting from [i] *)
Fixpoint enumerate {A : Type} (i : nat) (l : list A) : list (nat * A) :=
  match l with
  | [] => []
  | x :: l' => (i, x) :: enumerate (S i) l'
  end.

Definition Q_de_nat (n : nat) : Q := inject_Z (Z.of_nat n).

(** The widget calls of the inner loop, added to those made so far. *)
Fixpoint avisar_lote (tickers : list string) (batch_start : nat)
    (pares : list (nat * string)) (avisos : list Aviso) : exc (list Aviso) :=
  match pares with
  | [] => mret avisos
  | (i, t) :: resto =>
      progreso ← py_div (Q_de_nat (batch_start + i + 1)) (Q_de_nat (length tickers));
      avisar_lote tickers batch_start resto
        (avisos ++ [{| aviso_ticker := t;
                       aviso_posicion := batch_start + i + 1;
                       aviso_total := length tickers;
                       aviso_progreso := progreso |}])
  end.

(** The widget calls of the outer loop. *)
Fixpoint avisar_lotes (tickers : list string) (inicios : list nat)
    (avisos : list Aviso) : exc (list Aviso) :=
  match inicios with
  | [] => mret avisos
  | batch_start :: resto =>
      let batch_end := (batch_start + batch_size) `min` length tickers in
      let batch_tickers := rebanada tickers batch_start batch_end in
      avisos' ← avisar_lote tickers batch_start (enumerate 0 batch_tickers) avisos;
      avisar_lotes tickers resto avisos'
  end.

(** The widget calls of lines 188-196, in order. *)
Definition avisos_de (tickers : list string) : exc (list Aviso) :=
  avisar_lotes tickers (rango (length tickers) batch_size) [].

(** The call of the iteration at place [k] (counting from 0) of a run
    over [n] tickers. *)
Definition aviso_en (n k : nat) (t : string) : Aviso :=
  {| aviso_ticker := t;
     aviso_posicion := k + 1;
     aviso_total := n;
     aviso_progreso := (Q_de_nat (k + 1) / Q_de_nat n)%Q |}.

(** ** Counting the fetches *)

(** The provider [yf] with the number of fetches made kept beside its world. *)
Definition contar {mundo : Type} (yf : string → mundo → exc RawFinancials * mundo)
    (ticker : string) (w : mundo * nat) : exc RawFinancials * (mundo * nat) :=
  let r := yf ticker w.1 in
  (r.1, (r.2, S w.2)).

(** ** Texts made of whitespace and commas *)

Fixpoint todo_espacios (s : string) : bool :=
  match s with
  | EmptyString => true
  | String c s' => es_espacio c && todo_espacios s'
  end.

Fixpoint en_blanco (s : string) : bool :=
  match s with
  | EmptyString => true
  | String c s' => (es_espacio c || bool_decide (c = ","%char)) && en_blanco s'
  end.

(** [c in s] *)
Fixpoint aparece (c : ascii) (s : string) : bool :=
  match s with
  | EmptyString => false
  | String c' s' => bool_decide (c = c') || aparece c s'
  end.

(** ** Concrete data for the examples *)

Definition sin_datos : RawFinancials :=
  {| info := ∅; info_texto := ∅; balance_sheet := ∅; financials := ∅; cashflow := ∅ |}.

(** Market capitalisation 1000, beta 1, no debt. *)
Definition solo_patrimonio : RawFinancials :=
  {| info := {[ "marketCap" := 1000%Q; "beta" := 1%Q; "currentPrice" := 50%Q ]};
     info_texto := {[ "longName" := "Solo Patrimonio S.A." ]};
     balance_sheet := {[ "Common Stock Equity" := 400%Q ]};
     financials := {[ "EBIT" := 100%Q ]};
     cashflow := ∅ |}.

(** A provider that always answers with the same data; the world is [unit]. *)
Definition proveedor_fijo (d : RawFinancials) (ticker : string) (w : unit)
    : exc RawFinancials * unit :=
  (Devuelve d, w).

(** A provider that knows every ticker but "BAD". *)
Definition proveedor_ejemplo (ticker : string) (w : unit) : exc RawFinancials * unit :=
  if decide (ticker = "BAD")
  then (Lanza (ErrorProveedor "No data found, symbol may be delisted"), w)
  else (Devuelve solo_patrimonio, w).

(** A provider that is down. *)
Definition proveedor_caido (ticker : string) (w : unit) : exc RawFinancials * unit :=
  (Lanza (ErrorProveedor "Too Many Requests"), w).

(** A provider whose quoted price moves with every fetch; the world is
    the number of fetches made so far. *)
Definition proveedor_contador (ticker : string) (w : nat) : exc RawFinancials * nat :=
  (Devuelve {| info := {[ "currentPrice" := inject_Z (Z.of_nat w) ]};
               info_texto := ∅; balance_sheet := ∅; financials := ∅;
               cashflow := ∅ |},
   S w).

(** Free cash flow and shares but no price; and the same with a price. *)
Definition sin_precio : RawFinancials :=
  {| info := {[ "sharesOutstanding" := 10%Q; "marketCap" := 1000%Q ]};
     info_texto := ∅; balance_sheet := ∅; financials := ∅;
     cashflow := {[ "Free Cash Flow" := 100%Q ]} |}.

Definition con_precio : RawFinancials :=
  {| info := <[ "currentPrice" := 50%Q ]> (info sin_precio);
     info_texto := ∅; balance_sheet := ∅; financials := ∅;
     cashflow := cashflow sin_precio |}.

(** A price and shares, with a free cash flow of zero. *)
Definition fcf_cero : RawFinancials :=
  {| info := {[ "currentPrice" := 10%Q; "sharesOutstanding" := 5%Q ]};
     info_texto := ∅; balance_sheet := ∅; financials := ∅;
     cashflow := {[ "Free Cash Flow" := 0%Q ]} |}.


(** A WACC of 10 % and a ROIC of 10.004 %: beta 1.6 without debt, and an
    EBIT of 10 004 000 on an equity of 79 000 000 at the default tax
    rate. *)
Definition casi_empate : RawFinancials :=
  {| info := {[ "marketCap" := 1000000000%Q; "beta" := 1.6%Q;
                "currentPrice" := 50%Q; "dividendYield" := 0.01%Q;
                "returnOnAssets" := 0.05%Q; "returnOnEquity" := 0.1%Q;
                "operatingMargins" := 0.2%Q; "profitMargins" := 0.1%Q ]};
     info_texto := {[ "longName" := "Casi Empate S.A." ]};
     balance_sheet := {[ "Common Stock Equity" := 79000000%Q ]};
     financials := {[ "EBIT" := 10004000%Q ]};
     cashflow := ∅ |}.

(** The record of "ACME" from [casi_empate]. *)
Definition registro_casi_empate : Registro :=
  Eval vm_compute in
    registro "ACME" casi_empate None (terna_de (calcular_cuerpo casi_empate)).

(** The record of "ACME" from [solo_patrimonio]. *)
Definition registro_solo_patrimonio : Registro :=
  Eval vm_compute in
    registro "ACME" solo_patrimonio None (terna_de (calcular_cuerpo solo_patrimonio)).

(** The record of "ACME" from [fcf_cero]. *)
Definition registro_fcf_cero : Registro :=
  Eval vm_compute in
    registro "ACME" fcf_cero None (terna_de (calcular_cuerpo fcf_cero)).

(** Market capitalisation 800 and debt 200, with interest and taxes. *)
Definition con_deuda : RawFinancials :=
  {| info := {[ "marketCap" := 800%Q; "beta" := 1%Q ]};
     info_texto := ∅;
     balance_sheet := {[ "Total Debt" := 200%Q; "Common Stock Equity" := 400%Q;
                         "Cash And Cash Equivalents" := 50%Q ]};
     financials := {[ "Interest Expense" := 10%Q; "Ebt" := 100%Q;
                      "Income Tax Expense" := 25%Q; "EBIT" := 110%Q ]};
     cashflow := ∅ |}.

(** Tickers typed with a repetition. *)
Definition entrada_repetida : string := "aapl, msft ,AAPL".

Definition parametros_iniciales : Parametros :=
  {| Rf := 0.0435%Q; Rm := 0.085%Q; Tc := 0.21%Q |}.

(** * Properties *)

(** ** Python arithmetic *)

Lemma distinto_de_cero_false (x : Q) : (x == 0)%Q → distinto_de_cero x = false.
Proof.
  intros H. unfold distinto_de_cero.
  apply Qeq_bool_iff in H. now rewrite H.
Qed.

Lemma distinto_de_cero_true (x : Q) : ¬ (x == 0)%Q → distinto_de_cero x = true.
Proof.
  intros H. unfold distinto_de_cero.
  destruct (Qeq_bool x 0) eqn:E; [|reflexivity].
  apply Qeq_bool_iff in E. contradiction.
Qed.

Lemma distinto_de_cero_spec (x : Q) : distinto_de_cero x = true ↔ ¬ (x == 0)%Q.
Proof.
  split.
  - intros H Hx. rewrite (distinto_de_cero_false x Hx) in H. discriminate.
  - apply distinto_de_cero_true.
Qed.

Lemma py_div_no_cero (a b : Q) : distinto_de_cero b = true → py_div a b = Devuelve (a / b)%Q.
Proof.
  unfold py_div, distinto_de_cero. now destruct (Qeq_bool b 0).
Qed.

Lemma py_div_lanza (a b : Q) : distinto_de_cero b = false → py_div a b = Lanza ZeroDivisionError.
Proof.
  unfold py_div, distinto_de_cero. now destruct (Qeq_bool b 0).
Qed.

Lemma mayor_que_spec (a b : Q) : mayor_que a b = true ↔ (b < a)%Q.
Proof.
  unfold mayor_que. rewrite Qgt_alt.
  destruct (a ?= b)%Q; split; intros; congruence.
Qed.

Lemma bind_devuelve {A B : Type} (a : A) (k : A → exc B) : Devuelve a ≫= k = k a.
Proof. reflexivity. Qed.

Lemma bind_lanza {A B : Type} (e : excepcion) (k : A → exc B) : Lanza e ≫= k = Lanza e.
Proof. reflexivity. Qed.

(** ** The formulas of calcular_wacc_y_roic *)

(** The guarded quotient of the source computes [cociente_o]. *)
Lemma cociente_guardado (a b defecto : Q) :
  (if distinto_de_cero b then py_div a b else Devuelve defecto)
  = Devuelve (cociente_o a b defecto).
Proof.
  unfold cociente_o. destruct (distinto_de_cero b) eqn:E; [|reflexivity].
  now apply py_div_no_cero.
Qed.

Lemma np_div_fin (a b : Q) : distinto_de_cero b = true → np_div a b = Fin (a / b).
Proof.
  unfold np_div, distinto_de_cero. now destruct (Qeq_bool b 0).
Qed.

Lemma dividir_fin (numpy : bool) (a b : Q) :
  distinto_de_cero b = true → dividir numpy a b = Devuelve (np_div a b).
Proof.
  intros Hb. unfold dividir. destruct numpy; [reflexivity|].
  now rewrite (py_div_no_cero _ _ Hb), (np_div_fin _ _ Hb).
Qed.

Lemma dividir_python_cero (a b : Q) :
  distinto_de_cero b = false → dividir false a b = Lanza ZeroDivisionError.
Proof. intros Hb. unfold dividir. now rewrite (py_div_lanza _ _ Hb). Qed.

(** With finite quotients line 61 is the sum of the two products. *)
Lemma combinar_wacc_fin (a b ke kd t : Q) :
  combinar_wacc (Fin a) (Fin b) ke kd t = Fin (a * ke + b * kd * (1 - t)).
Proof. reflexivity. Qed.

(** The body raises exactly when the total capital is zero and the debt
    is not a numpy value (its row is absent), and otherwise returns the
    values of the formulas. *)
Lemma calcular_cuerpo_spec (d : RawFinancials) :
  let market_cap := dict_get (info d) "marketCap" 0%Q in
  let beta := dict_get (info d) "beta" 1%Q in
  let ke := (0.02 + beta * 0.05)%Q in
  let deuda_total := primera_columna (balance_sheet d) "Total Debt" 0%Q in
  let deuda_numpy := bool_decide (is_Some (balance_sheet d !! "Total Debt")) in
  let efectivo := primera_columna (balance_sheet d) "Cash And Cash Equivalents" 0%Q in
  let patrimonio := primera_columna (balance_sheet d) "Common Stock Equity" 0%Q in
  let gastos_intereses := primera_columna (financials d) "Interest Expense" 0%Q in
  let ebt := primera_columna (financials d) "Ebt" 0%Q in
  let impuestos := primera_columna (financials d) "Income Tax Expense" 0%Q in
  let ebit := primera_columna (financials d) "EBIT" 0%Q in
  let kd := cociente_o gastos_intereses deuda_total 0%Q in
  let tasa_impuestos := cociente_o impuestos ebt 0.21%Q in
  let total_capital := (market_cap + deuda_total)%Q in
  let wacc := combinar_wacc (np_div market_cap total_capital)
                (np_div deuda_total total_capital) ke kd tasa_impuestos in
  let nopat := (ebit * (1 - tasa_impuestos))%Q in
  let capital_invertido := (patrimonio + (deuda_total - efectivo))%Q in
  let roic := cociente_o nopat capital_invertido 0%Q in
  calcular_cuerpo d =
    if distinto_de_cero total_capital || deuda_numpy
    then Devuelve {|
           market_cap := market_cap; beta := beta; ke := ke;
           deuda_total := deuda_total; efectivo := efectivo;
           patrimonio := patrimonio; gastos_intereses := gastos_intereses;
           ebt := ebt; impuestos := impuestos; ebit := ebit; kd := kd;
           tasa_impuestos := tasa_impuestos; total_capital := total_capital;
           wacc := wacc; nopat := nopat;
           capital_invertido := capital_invertido; roic := roic;
           diferencia_roic_wacc := num_sub (Fin roic) wacc;
           creando_valor := num_gt (Fin roic) wacc |}
    else Lanza ZeroDivisionError.
Proof.
  intros. unfold calcular_cuerpo.
  rewrite !cociente_guardado.
  rewrite !bind_devuelve. rewrite cociente_guardado.
  fold total_capital0 deuda_numpy.
  destruct (distinto_de_cero total_capital0) eqn:E; cbn [orb].
  - rewrite !(dividir_fin _ _ _ E), !bind_devuelve. reflexivity.
  - destruct deuda_numpy.
    + unfold dividir. rewrite !bind_devuelve. reflexivity.
    + rewrite !(dividir_python_cero _ _ E). apply bind_lanza.
Qed.

(** ** The price to free cash flow of obtener_datos_financieros *)

Lemma cociente_no_cero (f s : Q) :
  distinto_de_cero f = true → distinto_de_cero s = true →
  distinto_de_cero (f / s) = true.
Proof.
  rewrite !distinto_de_cero_spec. intros Hf Hs H.
  unfold Qdiv in H. apply Qmult_integral in H as [H|H]; [auto|].
  apply Hs. rewrite <- (Qinv_involutive s), H. reflexivity.
Qed.

(** P/FCF is computed only from a free cash flow and a share count that
    are both present and nonzero, and then needs the price. *)
Lemma calcular_pfcf_spec (stock : RawFinancials) :
  calcular_pfcf stock =
    match cashflow stock !! "Free Cash Flow", info stock !! "sharesOutstanding" with
    | Some f, Some s =>
        if distinto_de_cero f && distinto_de_cero s
        then match info stock !! "currentPrice" with
             | Some p => Devuelve (Some (p / (f / s))%Q)
             | None => Lanza TypeError
             end
        else Devuelve None
    | _, _ => Devuelve None
    end.
Proof.
  unfold calcular_pfcf.
  destruct (cashflow stock !! "Free Cash Flow") as [f|]; [|reflexivity].
  destruct (info stock !! "sharesOutstanding") as [s|]; cbn [verdadero].
  2:{ now rewrite andb_false_r. }
  destruct (distinto_de_cero f) eqn:Hf; [|reflexivity].
  destruct (distinto_de_cero s) eqn:Hs; [|reflexivity].
  cbn [andb py_truediv]. rewrite (py_div_no_cero _ _ Hs), bind_devuelve.
  destruct (info stock !! "currentPrice") as [p|]; [|reflexivity].
  cbn [py_truediv]. rewrite (py_div_no_cero _ _ (cociente_no_cero f s Hf Hs)).
  reflexivity.
Qed.

(** ** The insertion-ordered dict *)

Section Diccionario.

Context {V : Type}.
Implicit Types (d l : list (string * V)) (k : string) (v : V).

Lemma dict_set_claves k v d :
  (dict_set k v d).*1 = if decide (k ∈ d.*1) then d.*1 else d.*1 ++ [k].
Proof.
  induction d as [|[k' v'] d IH]; cbn [dict_set fmap list_fmap fst].
  - rewrite decide_False; [reflexivity|]. apply not_elem_of_nil.
  - destruct (decide (k = k')) as [->|Hne].
    + rewrite decide_True; [reflexivity|]. apply list_elem_of_here.
    + cbn [fmap list_fmap fst]. fold (fmap (M:=list) (@fst string V)).
      rewrite IH. destruct (decide (k ∈ d.*1)) as [Hin|Hnin].
      * rewrite decide_True; [reflexivity|]. now apply list_elem_of_further.
      * rewrite decide_False; [reflexivity|].
        intros [?|?]%elem_of_cons; contradiction.
Qed.

Lemma dict_lookup_set k k' v d :
  dict_lookup k (dict_set k' v d) = if decide (k = k') then Some v else dict_lookup k d.
Proof.
  induction d as [|[k2 v2] d IH]; cbn [dict_set dict_lookup].
  - reflexivity.
  - destruct (decide (k' = k2)) as [->|Hne]; cbn [dict_lookup].
    + destruct (decide (k = k2)); reflexivity.
    + rewrite IH. destruct (decide (k = k2)) as [->|]; [|reflexivity].
      now rewrite decide_False by congruence.
Qed.

Lemma dict_lookup_elem k v d :
  NoDup d.*1 → (k, v) ∈ d → dict_lookup k d = Some v.
Proof.
  induction d as [|[k' v'] d IH]; intros Hnd Hin.
  - now apply elem_of_nil in Hin.
  - cbn [dict_lookup]. rewrite fmap_cons in Hnd.
    apply NoDup_cons in Hnd as [Hk' Hnd]. cbn [fst] in Hk'.
    apply elem_of_cons in Hin as [[= -> ->]|Hin].
    + now rewrite decide_True.
    + rewrite decide_False; [now apply IH|].
      intros ->. apply Hk'.
      exact (list_elem_of_fmap_2 fst d (k', v) Hin).
Qed.

Lemma dict_de_snoc l k v d : dict_de (l ++ [(k, v)]) d = dict_set k v (dict_de l d).
Proof. unfold dict_de. now rewrite fold_left_app. Qed.

Lemma ultimo_snoc k k' v l :
  ultimo k (l ++ [(k', v)]) = if decide (k = k') then Some v else ultimo k l.
Proof.
  induction l as [|[k2 v2] l IH]; cbn [app ultimo].
  - destruct (decide (k = k')); reflexivity.
  - rewrite IH. destruct (decide (k = k')); reflexivity.
Qed.

Lemma primeras_elem (ks : list string) k : k ∈ primeras ks ↔ k ∈ ks.
Proof.
  induction ks as [|x ks IH]; cbn [primeras]; [reflexivity|].
  rewrite !elem_of_cons, list_elem_of_filter, IH.
  destruct (decide (k = x)); tauto.
Qed.

Lemma primeras_NoDup (ks : list string) : NoDup (primeras ks).
Proof.
  induction ks as [|x ks IH]; cbn [primeras]; [constructor|].
  apply NoDup_cons. split.
  - rewrite list_elem_of_filter. intros [Hx _]. now apply Hx.
  - now apply NoDup_filter.
Qed.

Lemma primeras_snoc (ks : list string) k :
  primeras (ks ++ [k]) = if decide (k ∈ ks) then primeras ks else primeras ks ++ [k].
Proof.
  induction ks as [|x ks IH]; cbn [app primeras].
  - rewrite decide_False; [reflexivity|]. apply not_elem_of_nil.
  - rewrite IH. destruct (decide (k ∈ ks)) as [Hin|Hnin].
    + rewrite decide_True; [reflexivity|]. now apply list_elem_of_further.
    + rewrite filter_app. destruct (decide (k = x)) as [->|Hne].
      * rewrite decide_True by apply list_elem_of_here.
        rewrite filter_cons_False by (intros Hx; now apply Hx). now rewrite app_nil_r.
      * rewrite decide_False.
        2:{ intros [?|?]%elem_of_cons; contradiction. }
        rewrite filter_cons_True by assumption. reflexivity.
Qed.

Lemma primeras_length (ks : list string) : length (primeras ks) ≤ length ks.
Proof.
  induction ks as [|x ks IH]; cbn [primeras length]; [lia|].
  pose proof (length_filter (λ y, y ≠ x) (primeras ks)). lia.
Qed.

Lemma primeras_length_dup (ks : list string) :
  ¬ NoDup ks → length (primeras ks) < length ks.
Proof.
  induction ks as [|x ks IH]; intros Hdup.
  - exfalso. apply Hdup. constructor.
  - cbn [primeras length].
    pose proof (length_filter (λ y, y ≠ x) (primeras ks)) as Hf.
    pose proof (primeras_length ks) as Hl.
    destruct (decide (x ∈ ks)) as [Hin|Hnin].
    + assert (length (filter (λ y, y ≠ x) (primeras ks)) < length (primeras ks)).
      { apply (length_filter_lt _ _ x); [now apply primeras_elem|].
        intros Hx. now apply Hx. }
      lia.
    + assert (¬ NoDup ks) by (intros Hnd; apply Hdup; now constructor).
      specialize (IH H). lia.
Qed.

Lemma primeras_size (ks : list string) :
  length (primeras ks) = size (list_to_set ks : gset string).
Proof.
  rewrite <- (size_list_to_set (C:=gset string) (primeras ks)) by apply primeras_NoDup.
  f_equal. apply set_eq. intros k.
  now rewrite !elem_of_list_to_set, primeras_elem.
Qed.

(** The dict built from a trace has the distinct keys of the trace in the
    order of their first occurrence, each with its last value. *)
Lemma dict_de_claves l : (dict_de l []).*1 = primeras l.*1.
Proof.
  induction l as [|[k v] l IH] using rev_ind; [reflexivity|].
  rewrite dict_de_snoc, dict_set_claves, fmap_app, IH.
  change ([(k, v)].*1) with [k]. rewrite primeras_snoc.
  destruct (decide (k ∈ l.*1)) as [Hin|Hnin].
  - rewrite decide_True; [reflexivity|]. now apply primeras_elem.
  - rewrite decide_False; [reflexivity|]. now rewrite primeras_elem.
Qed.

Lemma dict_de_lookup k l : dict_lookup k (dict_de l []) = ultimo k l.
Proof.
  induction l as [|[k' v] l IH] using rev_ind; [reflexivity|].
  now rewrite dict_de_snoc, dict_lookup_set, ultimo_snoc, IH.
Qed.

Lemma dict_de_entrada l i k v :
  dict_de l [] !! i = Some (k, v) → ultimo k l = Some v.
Proof.
  intros Hi. rewrite <- dict_de_lookup. apply dict_lookup_elem.
  - rewrite dict_de_claves. apply primeras_NoDup.
  - eapply list_elem_of_lookup_2, Hi.
Qed.

Lemma dict_de_NoDup l : NoDup l.*1 → dict_de l [] = l.
Proof.
  induction l as [|[k v] l IH] using rev_ind; intros Hnd; [reflexivity|].
  rewrite fmap_app in Hnd. apply NoDup_app in Hnd as (Hl & Hk & _).
  rewrite dict_de_snoc, (IH Hl). clear IH.
  assert (Hnin : k ∉ l.*1).
  { intros Hin. apply (Hk k Hin). apply list_elem_of_here. }
  clear Hk Hl. induction l as [|[k' v'] l IH]; [reflexivity|].
  cbn [dict_set app]. cbn [fmap list_fmap fst] in Hnin.
  apply not_elem_of_cons in Hnin as [Hne Hnin].
  rewrite decide_False by assumption. f_equal. now apply IH.
Qed.

End Diccionario.

(** ** Claims about calcular_wacc_y_roic *)

(** C8. Whenever EBT is zero (the row "Ebt" is absent or holds zero), the
    effective tax rate bound by [calcular_wacc_y_roic] is exactly 0.21,
    and it is that 0.21 which enters WACC, NOPAT and ROIC; the body does
    return such values whenever the total capital is not zero. *)
Theorem tasa_impuestos_por_defecto (d : RawFinancials) :
  (primera_columna (financials d) "Ebt" 0 == 0)%Q →
  (∀ c : Calculo, calcular_cuerpo d = Devuelve c →
     tasa_impuestos c = 0.21%Q ∧
     wacc c = combinar_wacc (np_div (market_cap c) (total_capital c))
                (np_div (deuda_total c) (total_capital c)) (ke c) (kd c) 0.21 ∧
     (¬ (total_capital c == 0)%Q →
        wacc c = Fin (market_cap c / total_capital c * ke c
                      + deuda_total c / total_capital c * kd c * (1 - 0.21))) ∧
     nopat c = (ebit c * (1 - 0.21))%Q ∧
     roic c = cociente_o (ebit c * (1 - 0.21)) (capital_invertido c) 0) ∧
  (¬ (dict_get (info d) "marketCap" 0
      + primera_columna (balance_sheet d) "Total Debt" 0 == 0)%Q →
   ∃ c : Calculo, calcular_cuerpo d = Devuelve c ∧ tasa_impuestos c = 0.21%Q).
Proof.
  intros Hebt.
  pose proof (calcular_cuerpo_spec d) as Hspec. cbv zeta in Hspec.
  assert (Htasa : ∀ i, cociente_o i (primera_columna (financials d) "Ebt" 0) 0.21 = 0.21%Q).
  { intros i. unfold cociente_o. now rewrite (distinto_de_cero_false _ Hebt). }
  rewrite !Htasa in Hspec.
  split.
  - intros c Hc. rewrite Hspec in Hc.
    destruct (distinto_de_cero _ || _); [|discriminate].
    injection Hc as <-.
    cbn [tasa_impuestos wacc market_cap total_capital deuda_total ke kd nopat
         ebit roic capital_invertido].
    split; [reflexivity|]. split; [reflexivity|]. split; [|split; reflexivity].
    intros Htc. apply distinto_de_cero_true in Htc.
    now rewrite !(np_div_fin _ _ Htc).
  - intros Hcap. rewrite Hspec.
    rewrite (distinto_de_cero_true _ Hcap). cbn [orb].
    eexists. split; reflexivity.
Qed.

Lemma tasa_impuestos_por_defecto_witness :
  (primera_columna (financials solo_patrimonio) "Ebt" 0 == 0)%Q ∧
  ∃ c : Calculo, calcular_cuerpo solo_patrimonio = Devuelve c ∧ tasa_impuestos c = 0.21%Q.
Proof.
  assert (H : (primera_columna (financials solo_patrimonio) "Ebt" 0 == 0)%Q)
    by (vm_compute; reflexivity).
  split; [exact H|].
  apply (proj2 (tasa_impuestos_por_defecto solo_patrimonio H)).
  vm_compute. discriminate.
Defined.

(** C9. With a market capitalisation of 1000, no debt and beta 1, the
    body returns, with cost of equity 0.07 and WACC 0.07. *)
Theorem caso_solo_patrimonio (d : RawFinancials) :
  (dict_get (info d) "marketCap" 0 == 1000)%Q →
  (primera_columna (balance_sheet d) "Total Debt" 0 == 0)%Q →
  (dict_get (info d) "beta" 1 == 1)%Q →
  ∃ c : Calculo,
    calcular_cuerpo d = Devuelve c ∧
    (ke c == 0.07)%Q ∧
    (∃ q : Q, wacc c = Fin q ∧ (q == 0.07)%Q) ∧
    (terna_de (calcular_cuerpo d)).1.1 = Some (wacc c).
Proof.
  intros Hmc Hdeuda Hbeta.
  pose proof (calcular_cuerpo_spec d) as Hspec. cbv zeta in Hspec.
  assert (Htc : distinto_de_cero (dict_get (info d) "marketCap" 0
                  + primera_columna (balance_sheet d) "Total Debt" 0)%Q = true).
  { apply distinto_de_cero_true. rewrite Hmc, Hdeuda. discriminate. }
  rewrite Htc in Hspec. cbn [orb] in Hspec.
  eexists. split; [exact Hspec|]. rewrite Hspec. cbn [ke wacc terna_de fst].
  split; [|split; [|reflexivity]].
  - rewrite Hbeta. reflexivity.
  - rewrite !(np_div_fin _ _ Htc), combinar_wacc_fin.
    eexists. split; [reflexivity|].
    assert (Hkd : ∀ i, cociente_o i (primera_columna (balance_sheet d) "Total Debt" 0) 0 = 0%Q).
    { intros i. unfold cociente_o. now rewrite (distinto_de_cero_false _ Hdeuda). }
    rewrite Hkd.
    generalize (cociente_o (primera_columna (financials d) "Income Tax Expense" 0)
                  (primera_columna (financials d) "Ebt" 0) 0.21).
    intros t. rewrite Hmc, Hdeuda, Hbeta. field.
Qed.

Lemma caso_solo_patrimonio_witness :
  ∃ c : Calculo,
    calcular_cuerpo solo_patrimonio = Devuelve c ∧
    (ke c == 0.07)%Q ∧
    (∃ q : Q, wacc c = Fin q ∧ (q == 0.07)%Q) ∧
    (terna_de (calcular_cuerpo solo_patrimonio)).1.1 = Some (wacc c).
Proof.
  apply (caso_solo_patrimonio solo_patrimonio); vm_compute; reflexivity.
Defined.

(** ** Claims that involve the provider *)

Section Propiedades.

Context {mundo : Type}.
Variable yf_Ticker : string → mundo → exc RawFinancials * mundo.

(** A successful result comes from a successful fetch and a P/FCF that
    did not raise, and is the record built from them. *)
Lemma obtener_exito (g : Parametros) (ticker : string) (w : mundo) (r : Registro) :
  (obtener_datos_financieros yf_Ticker g ticker w).1 = Exito r →
  ∃ (s : RawFinancials) (pfcf : option Q),
    (yf_Ticker ticker w).1 = Devuelve s ∧
    calcular_pfcf s = Devuelve pfcf ∧
    r = registro ticker s pfcf (calcular_wacc_y_roic yf_Ticker g ticker (yf_Ticker ticker w).2).1.
Proof.
  unfold obtener_datos_financieros.
  destruct (yf_Ticker ticker w).1 as [e|s] eqn:Hs; [discriminate|].
  rewrite bind_devuelve.
  destruct (calcular_pfcf s) as [e|pfcf] eqn:Hp; [discriminate|].
  rewrite bind_devuelve. cbn. intros [= <-].
  exists s, pfcf. repeat split; assumption.
Qed.

Lemma obtener_con_datos (g : Parametros) (ticker : string) (w : mundo)
    (s : RawFinancials) :
  (yf_Ticker ticker w).1 = Devuelve s →
  (obtener_datos_financieros yf_Ticker g ticker w).1 =
    match calcular_pfcf s with
    | Lanza e => Fallo ticker e
    | Devuelve pfcf =>
        Exito (registro ticker s pfcf (calcular_wacc_y_roic yf_Ticker g ticker (yf_Ticker ticker w).2).1)
    end.
Proof.
  intros Hs. unfold obtener_datos_financieros. rewrite Hs, bind_devuelve.
  destruct (calcular_pfcf s); reflexivity.
Qed.

Lemma obtener_sin_datos (g : Parametros) (ticker : string) (w : mundo)
    (e : excepcion) :
  (yf_Ticker ticker w).1 = Lanza e →
  obtener_datos_financieros yf_Ticker g ticker w = (Fallo ticker e, (yf_Ticker ticker w).2).
Proof.
  intros He. unfold obtener_datos_financieros. now rewrite He.
Qed.

(** *** The two loops of main *)

Lemma traza_claves (g : Parametros) (l : list string) (w : mundo) :
  (traza yf_Ticker g l w).*1 = l.
Proof.
  revert w. induction l as [|t l IH]; intros w; [reflexivity|].
  cbn [traza]. rewrite fmap_cons. cbn [fst]. now rewrite IH.
Qed.

Lemma traza_app (g : Parametros) (l1 l2 : list string) (w : mundo) :
  traza yf_Ticker g (l1 ++ l2) w
  = traza yf_Ticker g l1 w ++ traza yf_Ticker g l2 (mundo_tras yf_Ticker g l1 w).
Proof.
  revert w. induction l1 as [|t l1 IH]; intros w; [reflexivity|].
  cbn [app traza mundo_tras]. now rewrite IH.
Qed.

Lemma procesar_lote_traza (g : Parametros) (l : list string)
    (res : list (string * TickerResult)) (w : mundo) :
  procesar_lote yf_Ticker g l res w
  = (dict_de (traza yf_Ticker g l w) res, mundo_tras yf_Ticker g l w).
Proof.
  revert res w. induction l as [|t l IH]; intros res w; [reflexivity|].
  cbn [procesar_lote traza mundo_tras]. now rewrite IH.
Qed.

Lemma procesar_lote_app (g : Parametros) (l1 l2 : list string)
    (res : list (string * TickerResult)) (w : mundo) :
  procesar_lote yf_Ticker g (l1 ++ l2) res w
  = procesar_lote yf_Ticker g l2
      (procesar_lote yf_Ticker g l1 res w).1 (procesar_lote yf_Ticker g l1 res w).2.
Proof.
  revert res w. induction l1 as [|t l1 IH]; intros res w; [reflexivity|].
  cbn [app procesar_lote]. now rewrite IH.
Qed.

Lemma rebanada_min {A : Type} (l : list A) (a b : nat) :
  rebanada l a (b `min` length l) = rebanada l a b.
Proof.
  unfold rebanada. destruct (Nat.le_gt_cases b (length l)) as [Hle|Hgt].
  - now rewrite Nat.min_l.
  - rewrite Nat.min_r by lia.
    rewrite !take_ge; [reflexivity| |]; rewrite length_drop; lia.
Qed.

Lemma rebanada_app {A : Type} (l : list A) (a b c : nat) :
  a ≤ b → b ≤ c → rebanada l a b ++ rebanada l b c = rebanada l a c.
Proof.
  intros Hab Hbc. unfold rebanada.
  replace (drop b l) with (drop (b - a) (drop a l)).
  2:{ rewrite drop_drop. f_equal. lia. }
  rewrite take_take_drop. f_equal. lia.
Qed.

(** The batches of ten, one after the other, are the whole list. *)
Lemma procesar_lotes_seq (g : Parametros) (tickers : list string) (n k : nat)
    (res : list (string * TickerResult)) (w : mundo) :
  procesar_lotes yf_Ticker g tickers ((λ j, j * batch_size) <$> seq k n) res w
  = procesar_lote yf_Ticker g
      (rebanada tickers (k * batch_size) ((k + n) * batch_size)) res w.
Proof.
  revert k res w. induction n as [|n IH]; intros k res w.
  - cbn [seq fmap list_fmap procesar_lotes]. unfold rebanada.
    replace ((k + 0) * batch_size - k * batch_size) with 0 by lia.
    reflexivity.
  - cbn [seq]. rewrite fmap_cons. cbn [procesar_lotes].
    rewrite rebanada_min, IH.
    rewrite <- (rebanada_app tickers (k * batch_size) (k * batch_size + batch_size)
                  ((k + S n) * batch_size)) by (unfold batch_size; lia).
    rewrite procesar_lote_app.
    replace (S k * batch_size) with (k * batch_size + batch_size) by lia.
    replace ((S k + n) * batch_size) with ((k + S n) * batch_size) by lia.
    reflexivity.
Qed.

Lemma analizar_lote (g : Parametros) (tickers : list string) (w : mundo) :
  analizar yf_Ticker g tickers w = procesar_lote yf_Ticker g tickers [] w.
Proof.
  unfold analizar, rango. rewrite procesar_lotes_seq. f_equal.
  unfold rebanada. rewrite drop_0. apply take_ge.
  unfold batch_size.
  pose proof (Nat.div_mod_eq (length tickers + 10 - 1) 10).
  pose proof (Nat.mod_upper_bound (length tickers + 10 - 1) 10).
  lia.
Qed.

(** [resultados] after the loops is the dict of the trace. *)
Lemma analizar_traza (g : Parametros) (tickers : list string) (w : mundo) :
  analizar yf_Ticker g tickers w
  = (dict_de (traza yf_Ticker g tickers w) [], mundo_tras yf_Ticker g tickers w).
Proof. rewrite analizar_lote. apply procesar_lote_traza. Qed.

Lemma validos_todos_error (datos : list TickerResult) :
  Forall (λ d, tiene_error d = true) datos → validos datos = [].
Proof.
  induction 1 as [|d datos Hd _ IH]; [reflexivity|].
  destruct d; [discriminate|]. exact IH.
Qed.

(** C2. The triple returned by [calcular_wacc_y_roic], the result of
    [obtener_datos_financieros] and what [main] shows are the same for
    any two settings of [Rf], [Rm] and [Tc]; the cost of equity is
    0.02 + beta * 0.05 whatever they are. *)
Theorem parametros_sin_efecto (g1 g2 : Parametros) (ticker : string) (w : mundo) :
  calcular_wacc_y_roic yf_Ticker g1 ticker w = calcular_wacc_y_roic yf_Ticker g2 ticker w ∧
  obtener_datos_financieros yf_Ticker g1 ticker w = obtener_datos_financieros yf_Ticker g2 ticker w ∧
  (∀ d : RawFinancials,
     match calcular_cuerpo d with
     | Devuelve c => ke c = (0.02 + beta c * 0.05)%Q
     | Lanza e => e = ZeroDivisionError
     end) ∧
  ∀ (rf1 rm1 tc1 rf2 rm2 tc2 : Q) (tickers_input : string) (max_tickers : nat),
    main yf_Ticker rf1 rm1 tc1 tickers_input max_tickers w
    = main yf_Ticker rf2 rm2 tc2 tickers_input max_tickers w.
Proof.
  assert (Hlote : ∀ ga gb l res w0,
            procesar_lote yf_Ticker ga l res w0 = procesar_lote yf_Ticker gb l res w0).
  { intros ga gb l. induction l as [|t l IH]; intros res w0; [reflexivity|].
    cbn [procesar_lote]. apply IH. }
  assert (Hlotes : ∀ ga gb tickers inicios res w0,
            procesar_lotes yf_Ticker ga tickers inicios res w0
            = procesar_lotes yf_Ticker gb tickers inicios res w0).
  { intros ga gb tickers inicios.
    induction inicios as [|a inicios IH]; intros res w0; [reflexivity|].
    cbn [procesar_lotes]. rewrite (Hlote ga gb). apply IH. }
  repeat split.
  - intros d. pose proof (calcular_cuerpo_spec d) as Hspec. cbv zeta in Hspec.
    rewrite Hspec. destruct (distinto_de_cero _ || _); reflexivity.
  - intros. unfold main, analizar.
    destruct (tickers_de tickers_input max_tickers); [reflexivity|].
    now rewrite (Hlotes _ {| Rf := (rf2 / 100)%Q; Rm := (rm2 / 100)%Q; Tc := (tc2 / 100)%Q |}).
Qed.

(** In a successful result whose WACC and ROIC were computed, the
    stored spread is the ROIC minus the WACC. *)
Lemma diferencia_almacenada (g : Parametros) (ticker : string) (w : mundo)
    (r : Registro) (wv : numero) (rv : Q) :
  (obtener_datos_financieros yf_Ticker g ticker w).1 = Exito r →
  WACC r = Some wv →
  ROIC r = Some rv →
  Creacion_de_Valor r = Some (num_sub (Fin rv) wv).
Proof.
  intros Hr Hw Hroic.
  destruct (obtener_exito _ _ _ _ Hr) as (s & pfcf & Hs & Hp & ->).
  cbn in Hw, Hroic |- *.
  destruct (yf_Ticker ticker (yf_Ticker ticker w).2).1 as [e|d] eqn:Hd;
    [discriminate|].
  rewrite bind_devuelve in Hw, Hroic |- *.
  pose proof (calcular_cuerpo_spec d) as Hspec. cbv zeta in Hspec.
  destruct (calcular_cuerpo d) as [e|c] eqn:Hc; [discriminate|].
  cbn in Hw, Hroic |- *. injection Hw as <-. injection Hroic as <-.
  destruct (distinto_de_cero _ || _); [|discriminate].
  injection Hspec as ->. reflexivity.
Qed.

(** ** Claims about obtener_datos_financieros *)

(** C5 (as amended). When the fetch succeeds and the price is present,
    the extraction succeeds; P/FCF is price / (fcf / shares) when free
    cash flow and shares outstanding are both present and both nonzero,
    and is absent when either is absent or zero. *)
Theorem pfcf_presentes_y_no_nulos (g : Parametros) (ticker : string) (w : mundo)
    (s : RawFinancials) (p : Q) :
  (yf_Ticker ticker w).1 = Devuelve s →
  info s !! "currentPrice" = Some p →
  ∃ r : Registro,
    (obtener_datos_financieros yf_Ticker g ticker w).1 = Exito r ∧
    (∀ f n : Q,
       cashflow s !! "Free Cash Flow" = Some f →
       info s !! "sharesOutstanding" = Some n →
       ¬ (f == 0)%Q → ¬ (n == 0)%Q →
       P_FCF r = Some (p / (f / n))%Q) ∧
    (cashflow s !! "Free Cash Flow" = None ∨
     info s !! "sharesOutstanding" = None ∨
     (∃ f : Q, cashflow s !! "Free Cash Flow" = Some f ∧ (f == 0)%Q) ∨
     (∃ n : Q, info s !! "sharesOutstanding" = Some n ∧ (n == 0)%Q) →
     P_FCF r = None).
Proof.
  intros Hs Hp.
  rewrite (obtener_con_datos g ticker w s Hs), calcular_pfcf_spec, Hp.
  destruct (cashflow s !! "Free Cash Flow") as [f|] eqn:Hf.
  2:{ eexists. split; [reflexivity|]. split; [discriminate|reflexivity]. }
  destruct (info s !! "sharesOutstanding") as [n|] eqn:Hn.
  2:{ eexists. split; [reflexivity|]. split; [discriminate|reflexivity]. }
  destruct (distinto_de_cero f) eqn:Ef; cbn [andb].
  2:{ eexists. split; [reflexivity|]. split; [|reflexivity].
      intros f' n' [= <-] _ Hf' _. now rewrite (distinto_de_cero_true _ Hf') in Ef. }
  destruct (distinto_de_cero n) eqn:En.
  2:{ eexists. split; [reflexivity|]. split; [|reflexivity].
      intros f' n' _ [= <-] _ Hn'. now rewrite (distinto_de_cero_true _ Hn') in En. }
  eexists. split; [reflexivity|]. cbn [P_FCF registro]. split.
  - now intros f' n' [= <-] [= <-] _ _.
  - intros [?|[?|[(f' & [= <-] & H0)|(n' & [= <-] & H0)]]]; try discriminate.
    + now rewrite (distinto_de_cero_false _ H0) in Ef.
    + now rewrite (distinto_de_cero_false _ H0) in En.
Qed.

(** Without a price, a free cash flow and a share count that are present
    and nonzero turn the extraction into a failure record. *)
Lemma sin_precio_falla (g : Parametros) (ticker : string) (w : mundo)
    (s : RawFinancials) (f n : Q) :
  (yf_Ticker ticker w).1 = Devuelve s →
  info s !! "currentPrice" = None →
  cashflow s !! "Free Cash Flow" = Some f →
  info s !! "sharesOutstanding" = Some n →
  ¬ (f == 0)%Q → ¬ (n == 0)%Q →
  (obtener_datos_financieros yf_Ticker g ticker w).1 = Fallo ticker TypeError.
Proof.
  intros Hs Hp Hf Hn Hf0 Hn0.
  rewrite (obtener_con_datos g ticker w s Hs), calcular_pfcf_spec, Hp, Hf, Hn.
  now rewrite (distinto_de_cero_true _ Hf0), (distinto_de_cero_true _ Hn0).
Qed.

(** ** Claims about the loop and the filter of main *)

(** C6. With distinct tickers the result dict is the trace: one result
    per ticker, in input order.  A ticker whose fetch raises gets a
    failure record, and the tickers after it are processed as usual from
    the world the failed fetch left.  For ["GOOD", "BAD", "GOOD2"], where
    the fetch of "BAD" raises and the other two tickers yield records,
    the results are a record, a failure and a record in that order, and
    the table has the two records. *)
Theorem fallo_aislado (g : Parametros) (w : mundo) :
  (∀ tickers : list string, NoDup tickers →
     (analizar yf_Ticker g tickers w).1 = traza yf_Ticker g tickers w ∧
     ((analizar yf_Ticker g tickers w).1).*1 = tickers) ∧
  (∀ (antes despues : list string) (malo : string) (e : excepcion),
     let w1 := mundo_tras yf_Ticker g antes w in
     (yf_Ticker malo w1).1 = Lanza e →
     traza yf_Ticker g (antes ++ malo :: despues) w
     = traza yf_Ticker g antes w
       ++ (malo, Fallo malo e) :: traza yf_Ticker g despues (yf_Ticker malo w1).2) ∧
  ((∀ w' : mundo, ∃ e : excepcion, (yf_Ticker "BAD" w').1 = Lanza e) →
   (∀ w' : mundo, tiene_error (obtener_datos_financieros yf_Ticker g "GOOD" w').1 = false) →
   (∀ w' : mundo, tiene_error (obtener_datos_financieros yf_Ticker g "GOOD2" w').1 = false) →
   ∃ (r1 r3 : Registro) (e : excepcion),
     values (analizar yf_Ticker g ["GOOD"; "BAD"; "GOOD2"] w).1
     = [Exito r1; Fallo "BAD" e; Exito r3] ∧
     Ticker r1 = "GOOD" ∧ Ticker r3 = "GOOD2" ∧
     mostrar (analizar yf_Ticker g ["GOOD"; "BAD"; "GOOD2"] w).1 = Tabla [r1; r3]).
Proof.
  assert (Hdistintos : ∀ tickers : list string, NoDup tickers →
            (analizar yf_Ticker g tickers w).1 = traza yf_Ticker g tickers w).
  { intros tickers Hnd. rewrite analizar_traza. cbn [fst].
    apply dict_de_NoDup. now rewrite traza_claves. }
  split; [|split].
  - intros tickers Hnd. split; [now apply Hdistintos|].
    rewrite (Hdistintos tickers Hnd). apply traza_claves.
  - intros antes despues malo e w1 He. rewrite traza_app. f_equal.
    cbn [traza]. fold w1. now rewrite (obtener_sin_datos g malo w1 e He).
  - intros Hbad Hgood Hgood2.
    rewrite Hdistintos.
    2:{ apply (bool_decide_unpack _). vm_compute. exact I. }
    cbn [traza].
    set (o1 := obtener_datos_financieros yf_Ticker g "GOOD" w).
    destruct (Hbad o1.2) as [e He].
    rewrite (obtener_sin_datos g "BAD" o1.2 e He). cbn [fst snd].
    set (o3 := obtener_datos_financieros yf_Ticker g "GOOD2" (yf_Ticker "BAD" o1.2).2).
    pose proof (Hgood w) as H1. fold o1 in H1.
    pose proof (Hgood2 (yf_Ticker "BAD" o1.2).2) as H3. fold o3 in H3.
    destruct o1.1 as [r1|] eqn:E1; [|discriminate].
    destruct o3.1 as [r3|] eqn:E3; [|discriminate].
    exists r1, r3, e. split; [reflexivity|].
    destruct (obtener_exito _ _ _ _ E1) as (? & ? & _ & _ & ->).
    destruct (obtener_exito _ _ _ _ E3) as (? & ? & _ & _ & ->).
    repeat split.
Qed.

(** C7 (as amended). A run over at least one ticker whose results are all failure
    records ends in the error "No se pudo obtener datos válidos para
    ningún ticker"; and no run shows an empty table. *)
Theorem todos_fallan_error (rf_pct rm_pct tc_pct : Q) (tickers_input : string)
    (max_tickers : nat) (w : mundo) :
  let g := {| Rf := (rf_pct / 100)%Q; Rm := (rm_pct / 100)%Q; Tc := (tc_pct / 100)%Q |} in
  let tickers := tickers_de tickers_input max_tickers in
  (tickers ≠ [] →
   Forall (λ d, tiene_error d = true) (values (analizar yf_Ticker g tickers w).1) →
   (main yf_Ticker rf_pct rm_pct tc_pct tickers_input max_tickers w).1 = ErrorSinDatos) ∧
  (main yf_Ticker rf_pct rm_pct tc_pct tickers_input max_tickers w).1 ≠ Tabla [].
Proof.
  intros g tickers. unfold main. fold g tickers. split.
  - intros Hne Hall.
    destruct tickers as [|t tickers'] eqn:Ht; [contradiction|]. rewrite <- Ht in *.
    cbn [fst]. unfold mostrar.
    destruct (analizar yf_Ticker g tickers w).1 as [|x res] eqn:Hres.
    + exfalso. apply (f_equal (fmap fst)) in Hres.
      rewrite analizar_traza in Hres. cbn [fst] in Hres.
      rewrite dict_de_claves, traza_claves, Ht in Hres. discriminate.
    + now rewrite (validos_todos_error _ Hall).
  - destruct tickers; [discriminate|]. cbn [fst]. unfold mostrar.
    destruct (analizar yf_Ticker g (s :: tickers) w).1; [discriminate|].
    destruct (validos _); discriminate.
Qed.

(** C10. The result dict has one entry per distinct ticker, in the order
    of the first occurrences; each entry holds the result of the last
    processing of its ticker; so the report has as many rows as there are
    distinct tickers, fewer than the input when a ticker is repeated. *)
Theorem duplicados_colapsan (g : Parametros) (tickers : list string) (w : mundo) :
  let resultados := (analizar yf_Ticker g tickers w).1 in
  resultados.*1 = primeras tickers ∧
  (∀ (i : nat) (t : string) (r : TickerResult),
     resultados !! i = Some (t, r) → ultimo t (traza yf_Ticker g tickers w) = Some r) ∧
  length (values resultados) = size (list_to_set tickers : gset string) ∧
  (¬ NoDup tickers → length (values resultados) < length tickers).
Proof.
  intros resultados. subst resultados. rewrite analizar_traza. cbn [fst].
  assert (Hclaves : (dict_de (traza yf_Ticker g tickers w) []).*1 = primeras tickers).
  { now rewrite dict_de_claves, traza_claves. }
  assert (Hlen : length (values (dict_de (traza yf_Ticker g tickers w) []))
                 = length (primeras tickers)).
  { unfold values. now rewrite length_fmap, <- Hclaves, length_fmap. }
  split; [exact Hclaves|]. split; [|split].
  - intros i t r. apply dict_de_entrada.
  - rewrite Hlen. apply primeras_size.
  - intros Hdup. rewrite Hlen. now apply primeras_length_dup.
Qed.

End Propiedades.

(** ** The claims on concrete data *)


(** C3. The record of [casi_empate] stores a WACC of 0.1, a ROIC of
    0.10004 and their difference as the spread, so ROIC > WACC; both
    cells read "10.00%", the bar of the row is red and the message of the
    company is the one of ROIC < WACC. *)
Lemma color_rojo_con_roic_mayor :
  (obtener_datos_financieros (proveedor_fijo casi_empate) parametros_iniciales
     "ACME" tt).1 = Exito registro_casi_empate ∧
  ∃ wv rv cw cr : Q,
    WACC registro_casi_empate = Some (Fin wv) ∧
    ROIC registro_casi_empate = Some rv ∧
    (wv == 0.1)%Q ∧ (rv == 0.10004)%Q ∧ (wv < rv)%Q ∧
    Creacion_de_Valor registro_casi_empate = Some (Fin (rv - wv)) ∧
    celda_porcentaje (WACC registro_casi_empate) = Some (Fin cw) ∧
    celda_porcentaje (Fin <$> ROIC registro_casi_empate) = Some (Fin cr) ∧
    (cw == 10)%Q ∧ (cr == 10)%Q ∧
    color_de_fila registro_casi_empate = Some red ∧
    mensaje_de_empresa registro_casi_empate = destruyendo_valor_ROIC_menor_que_WACC.
Proof.
  split; [vm_compute; reflexivity|].
  eexists _, _, _, _.
  split; [reflexivity|]. split; [reflexivity|].
  split; [reflexivity|]. split; [reflexivity|]. split; [reflexivity|].
  split; [reflexivity|]. split; [reflexivity|]. split; [reflexivity|].
  split; [reflexivity|]. split; [reflexivity|]. split; reflexivity.
Qed.

(** C4. Without a price, and with a free cash flow and a share count that
    are present and nonzero, [None / (fcf / shares)] raises [TypeError]
    and the extraction ends in the failure record; with the price present
    and everything else equal it yields a record. *)
Lemma precio_ausente_aborta :
  info sin_precio !! "currentPrice" = None ∧
  calcular_pfcf sin_precio = Lanza TypeError ∧
  (obtener_datos_financieros (proveedor_fijo sin_precio) parametros_iniciales
     "ACME" tt).1 = Fallo "ACME" TypeError ∧
  tiene_error
    (obtener_datos_financieros (proveedor_fijo con_precio) parametros_iniciales
       "ACME" tt).1 = false.
Proof. vm_compute. repeat split. Qed.

(** C5 (as stated) fails: with the price, a free cash flow of zero and
    five shares outstanding, both are present and the share count is not
    zero, yet P/FCF is absent from the record. *)
Lemma pfcf_ausente_con_fcf_cero :
  cashflow fcf_cero !! "Free Cash Flow" = Some 0%Q ∧
  info fcf_cero !! "sharesOutstanding" = Some 5%Q ∧
  ¬ (5 == 0)%Q ∧
  ∃ r : Registro,
    (obtener_datos_financieros (proveedor_fijo fcf_cero) parametros_iniciales
       "ACME" tt).1 = Exito r ∧
    P_FCF r = None.
Proof.
  split; [reflexivity|]. split; [reflexivity|]. split; [discriminate|].
  exists registro_fcf_cero. split; [vm_compute; reflexivity|reflexivity].
Qed.

Lemma pfcf_presentes_y_no_nulos_witness :
  (proveedor_fijo con_precio "ACME" tt).1 = Devuelve con_precio ∧
  info con_precio !! "currentPrice" = Some 50%Q ∧
  ∃ r : Registro,
    (obtener_datos_financieros (proveedor_fijo con_precio) parametros_iniciales
       "ACME" tt).1 = Exito r ∧
    P_FCF r = Some (50 / (100 / 10))%Q.
Proof.
  assert (H1 : (proveedor_fijo con_precio "ACME" tt).1 = Devuelve con_precio)
    by reflexivity.
  assert (H2 : info con_precio !! "currentPrice" = Some 50%Q)
    by (vm_compute; reflexivity).
  destruct (pfcf_presentes_y_no_nulos (proveedor_fijo con_precio)
              parametros_iniciales "ACME" tt con_precio 50%Q H1 H2)
    as (r & Hr & Hp & _).
  repeat split; try assumption.
  exists r. split; [exact Hr|].
  apply Hp; [vm_compute; reflexivity|vm_compute; reflexivity|discriminate|discriminate].
Defined.

Lemma fallo_aislado_witness :
  NoDup ["GOOD"; "BAD"; "GOOD2"] ∧
  (analizar proveedor_ejemplo parametros_iniciales ["GOOD"; "BAD"; "GOOD2"] tt).1
  = traza proveedor_ejemplo parametros_iniciales ["GOOD"; "BAD"; "GOOD2"] tt ∧
  ∃ (r1 r3 : Registro) (e : excepcion),
    values (analizar proveedor_ejemplo parametros_iniciales ["GOOD"; "BAD"; "GOOD2"] tt).1
    = [Exito r1; Fallo "BAD" e; Exito r3] ∧
    Ticker r1 = "GOOD" ∧ Ticker r3 = "GOOD2" ∧
    mostrar (analizar proveedor_ejemplo parametros_iniciales ["GOOD"; "BAD"; "GOOD2"] tt).1
    = Tabla [r1; r3].
Proof.
  assert (Hnd : NoDup ["GOOD"; "BAD"; "GOOD2"])
    by (apply (bool_decide_unpack _); vm_compute; exact I).
  destruct (fallo_aislado proveedor_ejemplo parametros_iniciales tt)
    as (Hdistintos & _ & Hejemplo).
  split; [exact Hnd|]. split; [exact (proj1 (Hdistintos _ Hnd))|].
  apply Hejemplo.
  - intros []. eexists. reflexivity.
  - intros []. vm_compute. reflexivity.
  - intros []. vm_compute. reflexivity.
Defined.

(** C7 (as stated) fails on the run without tickers: no result is a
    record, and the run ends in the warning "Por favor ingresa al menos
    un ticker", not in the error. *)
Lemma sin_tickers_advertencia :
  tickers_de "" 50 = [] ∧
  Forall (λ d, tiene_error d = true)
    (values (analizar proveedor_caido parametros_iniciales (tickers_de "" 50) tt).1) ∧
  (main proveedor_caido 4.35 8.5 21 "" 50 tt).1 = Advertencia ∧
  (main proveedor_caido 4.35 8.5 21 "" 50 tt).1 ≠ ErrorSinDatos.
Proof.
  split; [reflexivity|]. split; [vm_compute; constructor|].
  split; [reflexivity|]. vm_compute. discriminate.
Qed.

Lemma todos_fallan_error_witness :
  tickers_de "AAPL, MSFT" 50 ≠ [] ∧
  (main proveedor_caido 4.35 8.5 21 "AAPL, MSFT" 50 tt).1 = ErrorSinDatos.
Proof.
  assert (H : tickers_de "AAPL, MSFT" 50 ≠ []) by (vm_compute; discriminate).
  split; [exact H|].
  apply (proj1 (todos_fallan_error proveedor_caido 4.35 8.5 21 "AAPL, MSFT" 50 tt));
    [exact H|].
  vm_compute. repeat constructor.
Defined.

Lemma duplicados_colapsan_witness :
  ¬ NoDup (tickers_de entrada_repetida 50) ∧
  length (values (analizar proveedor_contador parametros_iniciales
                    (tickers_de entrada_repetida 50) 0).1)
  < length (tickers_de entrada_repetida 50).
Proof.
  assert (H : ¬ NoDup (tickers_de entrada_repetida 50))
    by (apply (bool_decide_unpack _); vm_compute; exact I).
  split; [exact H|].
  apply (proj2 (proj2 (proj2 (duplicados_colapsan proveedor_contador
                                parametros_iniciales
                                (tickers_de entrada_repetida 50) 0)))).
  exact H.
Defined.

(** "aapl, msft ,AAPL": AAPL comes first with the price of its second
    processing (the fifth fetch), MSFT second with that of the third. *)
Example duplicado_ultimo_resultado :
  tickers_de entrada_repetida 50 = ["AAPL"; "MSFT"; "AAPL"] ∧
  (λ p : string * TickerResult,
     (p.1, match p.2 with Exito r => Precio r | Fallo _ _ => None end))
    <$> (analizar proveedor_contador parametros_iniciales
           (tickers_de entrada_repetida 50) 0).1
  = [("AAPL", Some 4%Q); ("MSFT", Some 2%Q)].
Proof. vm_compute. split; reflexivity. Qed.

(** * Further properties *)

(** ** The formulas of calcular_wacc_y_roic *)

(** X1. Without debt, and with a market capitalisation that is not zero, the
    cost of debt is 0 and the WACC is the cost of equity
    0.02 + beta * 0.05, whatever the beta. *)
Theorem sin_deuda_wacc_es_ke (d : RawFinancials) :
  (primera_columna (balance_sheet d) "Total Debt" 0 == 0)%Q →
  ¬ (dict_get (info d) "marketCap" 0 == 0)%Q →
  ∃ c : Calculo,
    calcular_cuerpo d = Devuelve c ∧
    kd c = 0%Q ∧
    (ke c == 0.02 + dict_get (info d) "beta" 1 * 0.05)%Q ∧
    ∃ q : Q, wacc c = Fin q ∧ (q == ke c)%Q.
Proof.
  intros Hdeuda Hmc.
  pose proof (calcular_cuerpo_spec d) as Hspec. cbv zeta in Hspec.
  assert (Htc : distinto_de_cero (dict_get (info d) "marketCap" 0
                  + primera_columna (balance_sheet d) "Total Debt" 0)%Q = true).
  { apply distinto_de_cero_true. rewrite Hdeuda, Qplus_0_r. exact Hmc. }
  rewrite Htc in Hspec. cbn [orb] in Hspec.
  eexists. split; [exact Hspec|]. cbn [kd ke wacc].
  assert (Hkd : ∀ i, cociente_o i (primera_columna (balance_sheet d) "Total Debt" 0) 0 = 0%Q).
  { intros i. unfold cociente_o. now rewrite (distinto_de_cero_false _ Hdeuda). }
  rewrite Hkd. split; [reflexivity|]. split; [reflexivity|].
  rewrite !(np_div_fin _ _ Htc), combinar_wacc_fin.
  eexists. split; [reflexivity|]. clear Hspec Hkd Htc.
  generalize (cociente_o (primera_columna (financials d) "Income Tax Expense" 0)
                (primera_columna (financials d) "Ebt" 0) 0.21).
  generalize dependent (dict_get (info d) "marketCap" 0%Q).
  generalize (dict_get (info d) "beta" 1%Q).
  intros b mc Hmc t. rewrite Hdeuda. field.
  intros H. apply Hmc. rewrite <- H. ring.
Qed.

Lemma sin_deuda_wacc_es_ke_witness :
  ∃ c : Calculo,
    calcular_cuerpo solo_patrimonio = Devuelve c ∧
    kd c = 0%Q ∧
    (ke c == 0.02 + dict_get (info solo_patrimonio) "beta" 1 * 0.05)%Q ∧
    ∃ q : Q, wacc c = Fin q ∧ (q == ke c)%Q.
Proof.
  apply (sin_deuda_wacc_es_ke solo_patrimonio).
  - vm_compute. reflexivity.
  - vm_compute. discriminate.
Defined.

(** X2. The invested capital is equity plus debt minus cash.  When it is
    zero the ROIC is 0 instead of a division by zero, and value is
    "created" exactly when the WACC is negative; otherwise ROIC times the
    invested capital gives back the NOPAT. *)
Theorem roic_y_capital_invertido (d : RawFinancials) (c : Calculo) :
  calcular_cuerpo d = Devuelve c →
  capital_invertido c = (patrimonio c + (deuda_total c - efectivo c))%Q ∧
  ((capital_invertido c == 0)%Q →
     roic c = 0%Q ∧
     (creando_valor c = true ↔
      (∃ q : Q, wacc c = Fin q ∧ (q < 0)%Q) ∨ wacc c = Inf false)) ∧
  (¬ (capital_invertido c == 0)%Q →
     (roic c * capital_invertido c == nopat c)%Q).
Proof.
  intros Hc.
  pose proof (calcular_cuerpo_spec d) as Hspec. cbv zeta in Hspec.
  rewrite Hc in Hspec.
  destruct (distinto_de_cero _ || _); [|discriminate].
  injection Hspec as ->. cbn [capital_invertido roic nopat creando_valor wacc
                              patrimonio deuda_total efectivo].
  split; [reflexivity|]. split.
  - intros H0.
    assert (Hroic : ∀ i, cociente_o i
              (primera_columna (balance_sheet d) "Common Stock Equity" 0
               + (primera_columna (balance_sheet d) "Total Debt" 0
                  - primera_columna (balance_sheet d) "Cash And Cash Equivalents" 0))%Q
              0 = 0%Q).
    { intros i. unfold cociente_o. now rewrite (distinto_de_cero_false _ H0). }
    rewrite !Hroic. split; [reflexivity|].
    destruct (combinar_wacc _ _ _ _ _) as [q|[]|]; cbn [num_gt negb].
    + rewrite mayor_que_spec. split.
      * intros Hq. left. now exists q.
      * intros [(q' & [= <-] & Hq)|[=]]. exact Hq.
    + split; [discriminate|]. intros [(q' & [=] & _)|[=]].
    + split; [now right|reflexivity].
    + split; [discriminate|]. intros [(q' & [=] & _)|[=]].
  - intros Hn0. unfold cociente_o at 1.
    rewrite (distinto_de_cero_true _ Hn0). field. exact Hn0.
Qed.

Lemma roic_y_capital_invertido_witness :
  ∃ c : Calculo,
    calcular_cuerpo solo_patrimonio = Devuelve c ∧
    capital_invertido c = (patrimonio c + (deuda_total c - efectivo c))%Q.
Proof.
  destruct (calcular_cuerpo solo_patrimonio) as [e|c] eqn:Hc;
    [vm_compute in Hc; discriminate|].
  exists c. split; [reflexivity|].
  exact (proj1 (roic_y_capital_invertido solo_patrimonio c Hc)).
Defined.

(** ** The value-creation colour and message *)

(** [redondear q] is within one half of [q], and even when it is exactly
    one half away. *)
Lemma redondear_cotas (q : Q) :
  let z := redondear q in
  let n := Qnum q in
  let d := Z.pos (Qden q) in
  (2 * z * d - d ≤ 2 * n ≤ 2 * z * d + d)%Z ∧
  ((2 * n = 2 * z * d - d ∨ 2 * n = 2 * z * d + d)%Z → Z.even z = true).
Proof.
  intros z n d. subst z. unfold redondear. fold n d.
  pose proof (Z.div_mod n d ltac:(subst d; lia)) as Hdm.
  pose proof (Z.mod_pos_bound n d ltac:(subst d; lia)) as Hr.
  set (piso := (n / d)%Z) in *. set (resto := (n mod d)%Z) in *.
  assert (Hd : (0 < d)%Z) by (subst d; lia).
  clearbody piso resto d n.
  destruct (Z.compare_spec (2 * resto) d) as [He|Hl|Hg].
  - destruct (Z.even piso) eqn:Hev.
    + split; [nia|]. intros _. exact Hev.
    + split; [nia|]. intros _. rewrite Z.even_add, Hev. reflexivity.
  - split; [nia|]. intros [H|H]; exfalso; nia.
  - split; [nia|]. intros [H|H]; exfalso; nia.
Qed.

(** Two numbers that round apart are apart, in the same order. *)
Lemma redondear_creciente (a b : Q) :
  (redondear b < redondear a)%Z → (b < a)%Q.
Proof.
  intros Hlt.
  destruct (redondear_cotas a) as [Ha Hta].
  destruct (redondear_cotas b) as [Hb Htb].
  cbv zeta in *. unfold Qlt.
  set (za := redondear a) in *. set (zb := redondear b) in *.
  set (na := Qnum a) in *. set (nb := Qnum b) in *.
  assert (Hda : (0 < Z.pos (Qden a))%Z) by lia.
  assert (Hdb : (0 < Z.pos (Qden b))%Z) by lia.
  set (da := Z.pos (Qden a)) in *. set (db := Z.pos (Qden b)) in *.
  clearbody za zb na nb da db.
  destruct (Z_lt_le_dec (nb * da) (na * db)) as [H|H]; [exact H|exfalso].
  assert (H1 : ((2 * za - 1) * (da * db) ≤ 2 * na * db)%Z) by nia.
  assert (H2 : (2 * nb * da ≤ (2 * zb + 1) * (da * db))%Z) by nia.
  assert (Hp : (0 < da * db)%Z) by nia.
  assert (Hz : (za = zb + 1)%Z) by nia.
  subst za.
  assert (Hea : (2 * na = 2 * (zb + 1) * da - da)%Z) by nia.
  assert (Heb : (2 * nb = 2 * zb * db + db)%Z) by nia.
  specialize (Hta (or_introl Hea)). specialize (Htb (or_intror Heb)).
  rewrite Z.even_add, Htb in Hta. discriminate.
Qed.

(** The comparison of two cells agrees with the comparison of the stored
    values when it finds the ROIC cell greater. *)
Lemma celdas_mayor (w : numero) (r : Q) (cw cr : numero) :
  celda_porcentaje (Some w) = Some cw →
  celda_porcentaje (Some (Fin r)) = Some cr →
  num_gt cr cw = true →
  num_gt (Fin r) w = true.
Proof.
  destruct w as [q|s|]; cbn [celda_porcentaje]; intros [= <-] [= <-];
    cbn [num_gt]; [|trivial].
  rewrite !mayor_que_spec. intros Hlt.
  assert (Hz : (redondear (q * 100 * 100) < redondear (r * 100 * 100))%Z).
  { revert Hlt. generalize (redondear (q * 100 * 100)), (redondear (r * 100 * 100)).
    intros zq zr. unfold Qlt, Qdiv, Qmult, Qinv, inject_Z. cbn. lia. }
  apply redondear_creciente in Hz. lra.
Qed.

(** X16. A green bar in the chart of value creation, and the message that
    the company is creating value, are shown only for a row whose stored
    ROIC is greater than its stored WACC. *)
Theorem verde_solo_con_roic_mayor (row : Registro) :
  color_de_fila row = Some green ∨
  mensaje_de_empresa row = creando_valor_ROIC_mayor_que_WACC →
  ∃ (w : numero) (r : Q),
    WACC row = Some w ∧ ROIC row = Some r ∧ num_gt (Fin r) w = true.
Proof.
  unfold color_de_fila, mensaje_de_empresa.
  destruct (WACC row) as [w|], (ROIC row) as [r|]; cbn [fmap option_fmap option_map].
  - destruct (celda_porcentaje (Some w)) as [cw|] eqn:Hw.
    + destruct (celda_porcentaje (Some (Fin r))) as [cr|] eqn:Hr.
      * intros H. exists w, r. split; [reflexivity|]. split; [reflexivity|].
        apply (celdas_mayor w r cw cr Hw Hr).
        destruct (num_gt cr cw); [reflexivity|].
        destruct H as [H|H]; [|discriminate].
        destruct (verdadero_num (Some cw) && verdadero_num (Some cr)); discriminate.
      * intros [H|H]; [|discriminate].
        destruct (verdadero_num (Some cw) && verdadero_num None); discriminate.
    + intros [H|H].
      * cbn [verdadero_num andb] in H. discriminate.
      * destruct (celda_porcentaje (Some (Fin r))); discriminate.
  - cbn [celda_porcentaje].
    destruct (celda_porcentaje (Some w)) as [cw|];
      cbn [verdadero_num andb]; rewrite ?andb_false_r;
      intros [H|H]; discriminate.
  - cbn [celda_porcentaje verdadero_num andb].
    destruct (celda_porcentaje (Some (Fin r))); intros [H|H]; discriminate.
  - cbn [celda_porcentaje verdadero_num andb]. intros [H|H]; discriminate.
Qed.

Lemma verde_solo_con_roic_mayor_witness :
  color_de_fila registro_solo_patrimonio = Some green ∧
  ∃ (w : numero) (r : Q),
    WACC registro_solo_patrimonio = Some w ∧
    ROIC registro_solo_patrimonio = Some r ∧ num_gt (Fin r) w = true.
Proof.
  assert (H : color_de_fila registro_solo_patrimonio = Some green)
    by (vm_compute; reflexivity).
  split; [exact H|].
  exact (verde_solo_con_roic_mayor registro_solo_patrimonio (or_introl H)).
Defined.

(** ** The ticker list of main *)

Lemma mayuscula_idem (c : ascii) : mayuscula (mayuscula c) = mayuscula c.
Proof. destruct c as [[] [] [] [] [] [] [] []]; reflexivity. Qed.

Lemma es_espacio_mayuscula (c : ascii) : es_espacio (mayuscula c) = es_espacio c.
Proof. destruct c as [[] [] [] [] [] [] [] []]; reflexivity. Qed.

Lemma coma_mayuscula (c : ascii) :
  bool_decide (","%char = mayuscula c) = bool_decide (","%char = c).
Proof. destruct c as [[] [] [] [] [] [] [] []]; reflexivity. Qed.

Lemma upper_idem (s : string) : upper (upper s) = upper s.
Proof.
  induction s as [|c s IH]; [reflexivity|].
  cbn [upper]. now rewrite mayuscula_idem, IH.
Qed.

Lemma upper_vacio (s : string) : upper s = EmptyString ↔ s = EmptyString.
Proof. destruct s; split; intros H; try reflexivity; discriminate. Qed.

Lemma upper_lstrip (s : string) : upper (lstrip s) = lstrip (upper s).
Proof.
  induction s as [|c s IH]; [reflexivity|].
  cbn [upper lstrip]. rewrite es_espacio_mayuscula.
  destruct (es_espacio c); [exact IH|reflexivity].
Qed.

Lemma upper_rstrip (s : string) : upper (rstrip s) = rstrip (upper s).
Proof.
  induction s as [|c s IH]; [reflexivity|].
  cbn [upper rstrip]. rewrite <- IH, es_espacio_mayuscula.
  destruct (rstrip s) as [|c' r]; cbn [upper]; [|reflexivity].
  destruct (es_espacio c); reflexivity.
Qed.

Lemma upper_strip (s : string) : upper (strip s) = strip (upper s).
Proof. unfold strip. now rewrite upper_rstrip, upper_lstrip. Qed.

Lemma lstrip_sin_espacio (c : ascii) (s : string) :
  es_espacio c = false → lstrip (String c s) = String c s.
Proof. intros H. cbn [lstrip]. now rewrite H. Qed.

Lemma lstrip_forma (s : string) :
  lstrip s = EmptyString ∨ ∃ c s', lstrip s = String c s' ∧ es_espacio c = false.
Proof.
  induction s as [|c s IH]; [now left|].
  cbn [lstrip]. destruct (es_espacio c) eqn:E; [exact IH|].
  right. now exists c, s.
Qed.

Lemma rstrip_cabeza (c : ascii) (s : string) :
  es_espacio c = false → ∃ r, rstrip (String c s) = String c r.
Proof.
  intros H. cbn [rstrip]. destruct (rstrip s) as [|c' r].
  - rewrite H. now exists EmptyString.
  - now exists (String c' r).
Qed.

Lemma rstrip_idem (s : string) : rstrip (rstrip s) = rstrip s.
Proof.
  induction s as [|c s IH]; [reflexivity|].
  cbn [rstrip]. destruct (rstrip s) as [|c' r] eqn:E.
  - destruct (es_espacio c) eqn:Ec; [reflexivity|].
    cbn [rstrip]. now rewrite Ec.
  - cbn [rstrip]. cbn [rstrip] in IH. fold rstrip in IH |- *.
    now rewrite IH.
Qed.

Lemma strip_idem (s : string) : strip (strip s) = strip s.
Proof.
  unfold strip. destruct (lstrip_forma s) as [->|(c & s' & -> & Hc)]; [reflexivity|].
  destruct (rstrip_cabeza c s' Hc) as [r Hr].
  rewrite Hr, (lstrip_sin_espacio c r Hc), <- Hr. apply rstrip_idem.
Qed.

Lemma split_no_vacio (sep : ascii) (s : string) : split sep s ≠ [].
Proof.
  destruct s as [|c s]; cbn [split]; [discriminate|].
  destruct (decide (c = sep)); [discriminate|].
  destruct (split sep s); discriminate.
Qed.

Lemma split_sin_separador (sep : ascii) (s : string) :
  Forall (λ campo, aparece sep campo = false) (split sep s).
Proof.
  induction s as [|c s IH]; cbn [split].
  - repeat constructor.
  - destruct (decide (c = sep)) as [->|Hne].
    + constructor; [reflexivity|exact IH].
    + destruct (split sep s) as [|campo resto].
      * constructor; [|constructor]. cbn [aparece].
        rewrite bool_decide_eq_false_2 by congruence. reflexivity.
      * apply Forall_cons in IH as [Hc Hr]. constructor; [|exact Hr].
        cbn [aparece]. rewrite bool_decide_eq_false_2 by congruence. exact Hc.
Qed.

Lemma aparece_lstrip (c : ascii) (s : string) :
  aparece c s = false → aparece c (lstrip s) = false.
Proof.
  induction s as [|c' s IH]; [easy|].
  cbn [lstrip]. destruct (es_espacio c'); [|easy].
  cbn [aparece]. intros [_ H]%orb_false_iff. now apply IH.
Qed.

Lemma aparece_rstrip (c : ascii) (s : string) :
  aparece c s = false → aparece c (rstrip s) = false.
Proof.
  induction s as [|c' s IH]; [easy|].
  cbn [aparece rstrip]. intros [Hc H]%orb_false_iff. specialize (IH H).
  destruct (rstrip s) as [|c2 r].
  - destruct (es_espacio c'); [reflexivity|]. cbn [aparece]. now rewrite Hc.
  - cbn [aparece] in IH |- *. now rewrite Hc.
Qed.

Lemma aparece_coma_upper (s : string) : aparece "," (upper s) = aparece "," s.
Proof.
  induction s as [|c s IH]; [reflexivity|].
  cbn [upper aparece]. now rewrite coma_mayuscula, IH.
Qed.

Lemma tickers_de_longitud (tickers_input : string) (max_tickers : nat) :
  length (tickers_de tickers_input max_tickers) ≤ max_tickers.
Proof. unfold tickers_de. rewrite length_take. lia. Qed.

(** X10. Every ticker of the list is a non-empty text without surrounding
    whitespace, lower-case ASCII letters or commas; the list has at most
    [max_tickers] of them, and is the list for a larger maximum cut at
    [max_tickers]: blank entries do not count towards the maximum. *)
Theorem tickers_normalizados (tickers_input : string) (max_tickers : nat) :
  length (tickers_de tickers_input max_tickers) ≤ max_tickers ∧
  Forall (λ t, t ≠ EmptyString ∧ strip t = t ∧ upper t = t ∧ aparece "," t = false)
    (tickers_de tickers_input max_tickers) ∧
  tickers_de tickers_input max_tickers
  = take max_tickers (tickers_de tickers_input (S max_tickers)).
Proof.
  split; [apply tickers_de_longitud|]. split.
  2:{ unfold tickers_de. rewrite take_take. f_equal. lia. }
  unfold tickers_de.
  apply Forall_take, Forall_fmap, Forall_forall.
  intros t [Ht Hin]%list_elem_of_filter. unfold compose. cbv beta.
  pose proof (split_sin_separador "," tickers_input) as Hsep.
  rewrite Forall_forall in Hsep. specialize (Hsep t Hin).
  repeat split.
  - now rewrite upper_vacio.
  - now rewrite <- upper_strip, strip_idem.
  - apply upper_idem.
  - rewrite aparece_coma_upper. unfold strip.
    now apply aparece_rstrip, aparece_lstrip.
Qed.

Lemma todo_espacios_lstrip (s : string) : todo_espacios (lstrip s) = todo_espacios s.
Proof.
  induction s as [|c s IH]; [reflexivity|].
  cbn [lstrip todo_espacios]. destruct (es_espacio c) eqn:E; [exact IH|].
  cbn [todo_espacios]. now rewrite E.
Qed.

Lemma rstrip_vacio (s : string) : rstrip s = EmptyString ↔ todo_espacios s = true.
Proof.
  induction s as [|c s IH]; [easy|].
  cbn [rstrip todo_espacios]. rewrite andb_true_iff, <- IH.
  destruct (rstrip s) as [|c' r].
  - destruct (es_espacio c); split; try easy; intros H; try discriminate.
  - split; [discriminate|]. intros [_ ?]. discriminate.
Qed.

Lemma strip_vacio (s : string) : strip s = EmptyString ↔ todo_espacios s = true.
Proof. unfold strip. now rewrite rstrip_vacio, todo_espacios_lstrip. Qed.

Lemma split_en_blanco (s : string) :
  forallb todo_espacios (split "," s) = en_blanco s.
Proof.
  induction s as [|c s IH]; [reflexivity|].
  cbn [split en_blanco]. destruct (decide (c = ","%char)) as [->|Hne].
  - cbn [forallb todo_espacios]. rewrite IH.
    rewrite bool_decide_eq_true_2 by reflexivity. now rewrite orb_true_r.
  - rewrite (bool_decide_eq_false_2 _ Hne), orb_false_r, <- IH.
    pose proof (split_no_vacio "," s) as Hnv.
    destruct (split "," s) as [|campo resto]; [contradiction|].
    cbn [forallb todo_espacios]. now rewrite andb_assoc.
Qed.

(** The list is empty exactly when the maximum is zero or the input has
    nothing but whitespace and commas. *)
Lemma tickers_de_vacio (tickers_input : string) (max_tickers : nat) :
  tickers_de tickers_input max_tickers = [] ↔
  max_tickers = 0 ∨ en_blanco tickers_input = true.
Proof.
  unfold tickers_de. rewrite <- split_en_blanco.
  generalize (split "," tickers_input). intros l.
  assert (Hfil : filter (λ t, strip t ≠ EmptyString) l = [] ↔ forallb todo_espacios l = true).
  { induction l as [|t l IH]; [easy|].
    cbn [forallb]. rewrite andb_true_iff, <- IH, <- strip_vacio.
    destruct (decide (strip t = EmptyString)) as [He|Hne].
    - rewrite filter_cons_False by (intros H; now apply H). tauto.
    - rewrite filter_cons_True by assumption. split; [discriminate|tauto]. }
  rewrite <- Hfil.
  destruct (filter (λ t, strip t ≠ EmptyString) l) as [|t l'].
  - rewrite fmap_nil, take_nil. tauto.
  - destruct max_tickers; cbn; [tauto|].
    split; [discriminate|]. intros [?|?]; discriminate.
Qed.

(** ** The status text and the progress bar *)

Lemma Q_de_nat_no_cero (n : nat) : n ≠ 0 → distinto_de_cero (Q_de_nat n) = true.
Proof.
  intros Hn. apply distinto_de_cero_true. unfold Q_de_nat.
  change 0%Q with (inject_Z 0). rewrite inject_Z_injective. lia.
Qed.

Lemma avisar_lote_spec (tickers l : list string) (batch_start i : nat)
    (avisos : list Aviso) :
  length tickers ≠ 0 →
  avisar_lote tickers batch_start (enumerate i l) avisos
  = Devuelve (avisos ++ imap (λ j, aviso_en (length tickers) (batch_start + (i + j))) l).
Proof.
  intros Hn. revert i avisos. induction l as [|t l IH]; intros i avisos.
  - cbn. now rewrite app_nil_r.
  - cbn [enumerate avisar_lote].
    rewrite (py_div_no_cero _ _ (Q_de_nat_no_cero _ Hn)), bind_devuelve, IH.
    rewrite <- app_assoc, imap_cons. f_equal. f_equal. cbn [app]. f_equal.
    + unfold aviso_en. now replace (batch_start + (i + 0)) with (batch_start + i) by lia.
    + apply imap_ext. intros j x _. unfold compose. f_equal. lia.
Qed.

Lemma avisar_lotes_seq (tickers : list string) (m k : nat) (avisos : list Aviso) :
  length tickers ≠ 0 →
  avisar_lotes tickers ((λ j, j * batch_size) <$> seq k m) avisos
  = Devuelve (avisos ++ imap (λ j, aviso_en (length tickers) (k * batch_size + j))
                          (rebanada tickers (k * batch_size) ((k + m) * batch_size))).
Proof.
  intros Hn. revert k avisos. induction m as [|m IH]; intros k avisos.
  - cbn [seq fmap list_fmap avisar_lotes]. unfold rebanada.
    replace ((k + 0) * batch_size - k * batch_size) with 0 by lia.
    cbn. now rewrite app_nil_r.
  - cbn [seq]. rewrite fmap_cons. cbn [avisar_lotes].
    rewrite rebanada_min, (avisar_lote_spec _ _ _ _ _ Hn), bind_devuelve, IH.
    rewrite <- (rebanada_app tickers (k * batch_size) (k * batch_size + batch_size)
                  ((k + S m) * batch_size)) by (unfold batch_size; lia).
    rewrite imap_app, <- app_assoc. f_equal. f_equal. f_equal.
    replace ((S k + m) * batch_size) with ((k + S m) * batch_size) by lia.
    replace (S k * batch_size) with (k * batch_size + batch_size) by lia.
    destruct (Nat.le_gt_cases (k * batch_size + batch_size) (length tickers)) as [Hle|Hgt].
    + apply imap_ext. intros j x _. f_equal.
      unfold rebanada. rewrite length_take, length_drop. unfold batch_size in *. lia.
    + assert (Hvacia : rebanada tickers (k * batch_size + batch_size)
                         ((k + S m) * batch_size) = []).
      { unfold rebanada. rewrite drop_ge by lia. apply take_nil. }
      now rewrite Hvacia.
Qed.

(** X9. The loop never divides by zero.  The iteration at place k of n shows
    position k + 1 of n and a progress of (k + 1) / n: the progress is
    positive, at most 1, grows at every ticker and ends at 1. *)
Theorem avisos_en_orden (tickers : list string) :
  let n := length tickers in
  avisos_de tickers = Devuelve (imap (aviso_en n) tickers) ∧
  Forall (λ a, (0 < aviso_progreso a)%Q ∧ (aviso_progreso a <= 1)%Q)
    (imap (aviso_en n) tickers) ∧
  (∀ (i j : nat) (a b : Aviso),
     imap (aviso_en n) tickers !! i = Some a →
     imap (aviso_en n) tickers !! j = Some b →
     i < j → (aviso_progreso a < aviso_progreso b)%Q) ∧
  (∀ a : Aviso,
     last (imap (aviso_en n) tickers) = Some a → (aviso_progreso a == 1)%Q).
Proof.
  intros n.
  assert (Hinv : ∀ k, k < n → (0 < / Q_de_nat n)%Q).
  { intros k Hk. apply Qinv_lt_0_compat. unfold Q_de_nat.
    change 0%Q with (inject_Z 0). rewrite <- Zlt_Qlt. lia. }
  assert (Hk : ∀ i a, imap (aviso_en n) tickers !! i = Some a →
                      i < n ∧ aviso_progreso a = (Q_de_nat (i + 1) / Q_de_nat n)%Q).
  { intros i a. rewrite list_lookup_imap.
    destruct (tickers !! i) as [t|] eqn:Ht; [|discriminate].
    intros [= <-]. split; [|reflexivity]. now apply lookup_lt_Some in Ht. }
  split; [|split; [|split]].
  - subst n. clear Hinv Hk.
    destruct (decide (length tickers = 0)) as [H0|Hn].
    { apply nil_length_inv in H0. subst tickers. reflexivity. }
    unfold avisos_de, rango. rewrite (avisar_lotes_seq _ _ _ _ Hn). cbn [app].
    f_equal. unfold rebanada. rewrite drop_0, take_ge.
    + apply imap_ext. intros j x _. reflexivity.
    + unfold batch_size.
      pose proof (Nat.div_mod_eq (length tickers + 10 - 1) 10).
      pose proof (Nat.mod_upper_bound (length tickers + 10 - 1) 10).
      lia.
  - apply Forall_forall. intros a [i Hi]%list_elem_of_lookup.
    destruct (Hk i a Hi) as [Hlt ->]. split.
    + unfold Qdiv. apply Qmult_lt_0_compat; [|exact (Hinv i Hlt)].
      unfold Q_de_nat. change 0%Q with (inject_Z 0). rewrite <- Zlt_Qlt. lia.
    + apply Qle_shift_div_r.
      * unfold Q_de_nat. change 0%Q with (inject_Z 0). rewrite <- Zlt_Qlt. lia.
      * rewrite Qmult_1_l. unfold Q_de_nat. rewrite <- Zle_Qle. lia.
  - intros i j a b Ha Hb Hij.
    destruct (Hk i a Ha) as [_ ->]. destruct (Hk j b Hb) as [Hj ->].
    unfold Qdiv. apply Qmult_lt_compat_r; [exact (Hinv j Hj)|].
    unfold Q_de_nat. rewrite <- Zlt_Qlt. lia.
  - intros a Ha. rewrite last_lookup, length_imap in Ha. fold n in Ha.
    destruct (Hk _ a Ha) as [Hlt ->].
    replace (Init.Nat.pred n + 1) with n by lia.
    apply Qmult_inv_r. unfold Q_de_nat.
    change 0%Q with (inject_Z 0). rewrite inject_Z_injective. lia.
Qed.

Lemma avisos_en_orden_witness :
  avisos_de ["AAPL"; "MSFT"] = Devuelve (imap (aviso_en 2) ["AAPL"; "MSFT"]) ∧
  imap (aviso_en 2) ["AAPL"; "MSFT"] !! 0 = Some (aviso_en 2 0 "AAPL") ∧
  imap (aviso_en 2) ["AAPL"; "MSFT"] !! 1 = Some (aviso_en 2 1 "MSFT") ∧
  (aviso_progreso (aviso_en 2 0 "AAPL") < aviso_progreso (aviso_en 2 1 "MSFT"))%Q.
Proof.
  destruct (avisos_en_orden ["AAPL"; "MSFT"]) as (H1 & _ & H3 & _).
  split; [exact H1|]. split; [reflexivity|]. split; [reflexivity|].
  apply (H3 0 1); [reflexivity|reflexivity|lia].
Defined.

(** ** The functions that fetch, again *)

Lemma ultimo_elem {V : Type} (k : string) (v : V) (l : list (string * V)) :
  ultimo k l = Some v → (k, v) ∈ l.
Proof.
  induction l as [|[k' v'] l IH]; [discriminate|].
  cbn [ultimo]. destruct (ultimo k l) as [x|].
  - intros [= ->]. apply list_elem_of_further. now apply IH.
  - destruct (decide (k = k')) as [->|]; [|discriminate].
    intros [= ->]. apply list_elem_of_here.
Qed.

(** The tickers of the records kept by the filter, when every record
    carries the key it is stored under. *)
Lemma validos_sublista (d : list (string * TickerResult)) :
  (∀ k r, (k, Exito r) ∈ d → Ticker r = k) →
  (Ticker <$> validos (values d)) `sublist_of` d.*1.
Proof.
  induction d as [|[k v] d IH]; intros Hinv; [constructor|].
  assert (Hd : ∀ k r, (k, Exito r) ∈ d → Ticker r = k).
  { intros k' r Hin. apply Hinv. now apply list_elem_of_further. }
  unfold values. rewrite !fmap_cons. cbn [fst snd].
  destruct v as [r|t e]; cbn [validos].
  - rewrite fmap_cons, (Hinv k r) by apply list_elem_of_here.
    apply sublist_skip. now apply IH.
  - apply sublist_cons. now apply IH.
Qed.

Lemma validos_todos_exito (d : list (string * TickerResult)) :
  (∀ k v, (k, v) ∈ d → ∃ r, v = Exito r ∧ Ticker r = k) →
  Ticker <$> validos (values d) = d.*1.
Proof.
  induction d as [|[k v] d IH]; intros Hinv; [reflexivity|].
  destruct (Hinv k v) as (r & -> & Hr); [apply list_elem_of_here|].
  unfold values. rewrite !fmap_cons. cbn [fst snd validos].
  rewrite fmap_cons, Hr. f_equal. apply IH.
  intros k' v' Hin. apply Hinv. now apply list_elem_of_further.
Qed.

Section Mas_propiedades.

Context {mundo : Type}.
Variable yf_Ticker : string → mundo → exc RawFinancials * mundo.

Lemma traza_elem (g : Parametros) (l : list string) (w : mundo)
    (t : string) (v : TickerResult) :
  (t, v) ∈ traza yf_Ticker g l w →
  t ∈ l ∧ ∃ w' : mundo, v = (obtener_datos_financieros yf_Ticker g t w').1.
Proof.
  revert w. induction l as [|t' l IH]; intros w Hin.
  - now apply elem_of_nil in Hin.
  - cbn [traza] in Hin. apply elem_of_cons in Hin as [[= -> ->]|Hin].
    + split; [apply list_elem_of_here|]. now exists w.
    + destruct (IH _ Hin) as [Ht Hw]. split; [|exact Hw].
      now apply list_elem_of_further.
Qed.

Lemma traza_take (g : Parametros) (l : list string) (w : mundo) (m : nat) :
  traza yf_Ticker g (take m l) w = take m (traza yf_Ticker g l w).
Proof.
  revert w m. induction l as [|t l IH]; intros w m.
  - now destruct m.
  - destruct m; [reflexivity|]. cbn [take traza]. now rewrite IH.
Qed.

(** Every entry of the result dict is the result of a call for its own
    ticker, one of the input. *)
Lemma analizar_entradas (g : Parametros) (tickers : list string) (w : mundo)
    (k : string) (v : TickerResult) :
  (k, v) ∈ (analizar yf_Ticker g tickers w).1 →
  k ∈ tickers ∧ ∃ w' : mundo, v = (obtener_datos_financieros yf_Ticker g k w').1.
Proof.
  rewrite analizar_traza. cbn [fst]. intros [i Hi]%list_elem_of_lookup.
  apply dict_de_entrada, ultimo_elem in Hi. now apply traza_elem in Hi.
Qed.


(** X5. [obtener_datos_financieros] fails exactly when its fetch raises, or
    when the price is absent while the free cash flow and the share count
    are present and nonzero; nothing that happens inside
    [calcular_wacc_y_roic] makes it fail.  A failure record and a
    successful record both carry the ticker asked for. *)
Theorem fallo_de_obtener (g : Parametros) (ticker : string) (w : mundo) :
  (tiene_error (obtener_datos_financieros yf_Ticker g ticker w).1 = true ↔
   (∃ e : excepcion, (yf_Ticker ticker w).1 = Lanza e) ∨
   (∃ (s : RawFinancials) (f n : Q),
      (yf_Ticker ticker w).1 = Devuelve s ∧
      info s !! "currentPrice" = None ∧
      cashflow s !! "Free Cash Flow" = Some f ∧
      info s !! "sharesOutstanding" = Some n ∧
      ¬ (f == 0)%Q ∧ ¬ (n == 0)%Q)) ∧
  (∀ (t : string) (e : excepcion),
     (obtener_datos_financieros yf_Ticker g ticker w).1 = Fallo t e → t = ticker) ∧
  (∀ r : Registro,
     (obtener_datos_financieros yf_Ticker g ticker w).1 = Exito r → Ticker r = ticker).
Proof.
  split; [|split].
  - destruct (yf_Ticker ticker w).1 as [e|s] eqn:Hs.
    + rewrite (obtener_sin_datos _ g ticker w e Hs). cbn. split; [|reflexivity].
      intros _. left. now exists e.
    + rewrite (obtener_con_datos _ g ticker w s Hs), calcular_pfcf_spec.
      destruct (cashflow s !! "Free Cash Flow") as [f|] eqn:Hf.
      2:{ cbn. split; [discriminate|].
          intros [[e [=]]|(s' & f & n & [= <-] & _ & Hf' & _)].
          rewrite Hf in Hf'. discriminate. }
      destruct (info s !! "sharesOutstanding") as [n|] eqn:Hn.
      2:{ cbn. split; [discriminate|].
          intros [[e [=]]|(s' & f' & n & [= <-] & _ & _ & Hn' & _)].
          rewrite Hn in Hn'. discriminate. }
      destruct (distinto_de_cero f) eqn:Ef; cbn [andb].
      2:{ cbn. split; [discriminate|].
          intros [[e [=]]|(s' & f' & n' & [= <-] & _ & Hf' & _ & Hf0 & _)].
          rewrite Hf in Hf'. injection Hf' as <-.
          now rewrite (distinto_de_cero_true _ Hf0) in Ef. }
      destruct (distinto_de_cero n) eqn:En.
      2:{ cbn. split; [discriminate|].
          intros [[e [=]]|(s' & f' & n' & [= <-] & _ & _ & Hn' & _ & Hn0)].
          rewrite Hn in Hn'. injection Hn' as <-.
          now rewrite (distinto_de_cero_true _ Hn0) in En. }
      apply distinto_de_cero_spec in Ef, En.
      destruct (info s !! "currentPrice") as [p|] eqn:Hp; cbn.
      * split; [discriminate|].
        intros [[e [=]]|(s' & f' & n' & [= <-] & Hp' & _)].
        rewrite Hp in Hp'. discriminate.
      * split; [|reflexivity]. intros _. right. exists s, f, n. tauto.
  - intros t e. unfold obtener_datos_financieros.
    destruct (_ ≫= _) as [e'|[s pfcf]]; cbn; [|discriminate].
    now intros [= <- _].
  - intros r Hr. destruct (obtener_exito _ _ _ _ _ Hr) as (s & pfcf & _ & _ & ->).
    reflexivity.
Qed.
(** X6. When the provider answers with an empty [info] (no price, no name,
    no ratios), the extraction still succeeds: the record carries the
    ticker as its name, "N/D" as sector, country and industry, and no
    price and no ratio. *)
Theorem registro_sin_info (g : Parametros) (ticker : string) (w : mundo)
    (s : RawFinancials) :
  (yf_Ticker ticker w).1 = Devuelve s →
  info s = ∅ →
  info_texto s = ∅ →
  ∃ r : Registro,
    (obtener_datos_financieros yf_Ticker g ticker w).1 = Exito r ∧
    Ticker r = ticker ∧ Nombre r = ticker ∧
    Sector r = "N/D" ∧ Pais r = "N/D" ∧ Industria r = "N/D" ∧
    [Precio r; P_E r; P_B r; P_FCF r; Dividend_Year r; Dividend_Yield r;
     Payout_Ratio r; ROA r; ROE r; Current_Ratio r; Quick_Ratio r;
     LtDebt_Eq r; Debt_Eq r; Oper_Margin r; Profit_Margin r]
    = replicate 15 None.
Proof.
  intros Hs Hinfo Htexto.
  rewrite (obtener_con_datos _ g ticker w s Hs), calcular_pfcf_spec.
  rewrite Hinfo, lookup_empty.
  assert (Hp : match cashflow s !! "Free Cash Flow" with
               | Some _ | _ => Devuelve (A:=option Q) None
               end = Devuelve None) by now destruct (cashflow s !! "Free Cash Flow").
  rewrite Hp. eexists. split; [reflexivity|].
  unfold registro, dict_get. cbn. rewrite Hinfo, Htexto, !lookup_empty.
  repeat split.
Qed.

Lemma obtener_contar (g : Parametros) (ticker : string) (w : mundo) (c : nat) :
  ((obtener_datos_financieros (contar yf_Ticker) g ticker (w, c)).2).2
  = c + (if tiene_error (obtener_datos_financieros (contar yf_Ticker) g ticker (w, c)).1
         then 1 else 2).
Proof.
  unfold obtener_datos_financieros, calcular_wacc_y_roic, contar. cbn [fst snd].
  destruct (_ ≫= _) as [e|[s pfcf]]; cbn; lia.
Qed.

(** X7. Every ticker of the list costs one fetch when its extraction fails
    and two when it succeeds: a run over n tickers makes between n and
    2n fetches. *)
Theorem fetches_por_ticker (g : Parametros) (tickers : list string)
    (w : mundo) (c : nat) :
  let final := (analizar (contar yf_Ticker) g tickers (w, c)).2 in
  let exitos := length (validos (traza (contar yf_Ticker) g tickers (w, c)).*2) in
  final.2 = c + length tickers + exitos ∧
  c + length tickers ≤ final.2 ∧
  final.2 ≤ c + 2 * length tickers.
Proof.
  intros final exitos. subst final exitos. rewrite analizar_traza. cbn [snd].
  assert (H : (mundo_tras (contar yf_Ticker) g tickers (w, c)).2
              = c + length tickers
                + length (validos (traza (contar yf_Ticker) g tickers (w, c)).*2)
              ∧ length (validos (traza (contar yf_Ticker) g tickers (w, c)).*2)
                ≤ length tickers).
  { revert w c. induction tickers as [|t l IH]; intros w c.
    - cbn. lia.
    - cbn [mundo_tras traza length]. rewrite fmap_cons. cbn [snd].
      pose proof (obtener_contar g t w c) as Hc.
      destruct (obtener_datos_financieros (contar yf_Ticker) g t (w, c))
        as [res [w' c']].
      cbn [fst snd] in Hc |- *. destruct (IH w' c') as [-> Hle].
      destruct res; cbn [tiene_error validos length] in Hc |- *; lia. }
  lia.
Qed.

(** X8. The batches of ten give what one pass over the whole list gives, and
    a shorter list (a smaller maximum) makes the first calls of the
    longer run and keeps their results. *)
Theorem lotes_y_truncado (g : Parametros) (tickers : list string) (w : mundo)
    (m : nat) :
  analizar yf_Ticker g tickers w = procesar_lote yf_Ticker g tickers [] w ∧
  traza yf_Ticker g (take m tickers) w = take m (traza yf_Ticker g tickers w) ∧
  (analizar yf_Ticker g (take m tickers) w).1
  = dict_de (take m (traza yf_Ticker g tickers w)) [].
Proof.
  split; [apply analizar_lote|]. split; [apply traza_take|].
  now rewrite analizar_traza, traza_take.
Qed.

(** X11. The warning for a missing ticker appears exactly when the maximum is
    zero or the input holds nothing but whitespace and commas, and then
    nothing is fetched; a run never ends without showing anything. *)
Theorem aviso_sin_tickers (rf_pct rm_pct tc_pct : Q) (tickers_input : string)
    (max_tickers : nat) (w : mundo) :
  let r := main yf_Ticker rf_pct rm_pct tc_pct tickers_input max_tickers w in
  (r.1 = Advertencia ↔ max_tickers = 0 ∨ en_blanco tickers_input = true) ∧
  (r.1 = Advertencia → r.2 = w) ∧
  r.1 ≠ Nada.
Proof.
  intros r. subst r. unfold main.
  rewrite <- tickers_de_vacio.
  destruct (tickers_de tickers_input max_tickers) as [|t l] eqn:Ht; cbn [fst snd].
  - repeat split; discriminate.
  - assert (Hres : ∃ x res, (analizar yf_Ticker
                {| Rf := (rf_pct / 100)%Q; Rm := (rm_pct / 100)%Q; Tc := (tc_pct / 100)%Q |}
                (t :: l) w).1 = x :: res).
    { destruct (analizar _ _ _ _).1 as [|x res] eqn:Hres; [|eauto].
      apply (f_equal (fmap fst)) in Hres.
      rewrite analizar_traza in Hres. cbn [fst] in Hres.
      rewrite dict_de_claves, traza_claves in Hres. discriminate. }
    destruct Hres as (x & res & ->). unfold mostrar.
    destruct (validos _); repeat split; try discriminate;
      intros H; try discriminate; destruct H; discriminate.
Qed.

(** X12. The rows of the table are records of distinct tickers of the input,
    in the order of their first occurrence; there is at least one row and
    at most [max_tickers]. *)
Theorem filas_de_la_tabla (rf_pct rm_pct tc_pct : Q) (tickers_input : string)
    (max_tickers : nat) (w : mundo) (df : list Registro) :
  (main yf_Ticker rf_pct rm_pct tc_pct tickers_input max_tickers w).1 = Tabla df →
  (Ticker <$> df) `sublist_of` primeras (tickers_de tickers_input max_tickers) ∧
  NoDup (Ticker <$> df) ∧
  0 < length df ∧ length df ≤ max_tickers.
Proof.
  unfold main.
  destruct (tickers_de tickers_input max_tickers) as [|t l] eqn:Ht; [discriminate|].
  rewrite <- Ht. cbn [fst]. set (g := Build_Parametros _ _ _).
  unfold mostrar. destruct (analizar yf_Ticker g _ w).1 as [|x res] eqn:Hres;
    [discriminate|]. rewrite <- Hres.
  destruct (validos _) as [|r0 df0] eqn:Hval; [discriminate|]. rewrite <- Hval.
  intros [= <-].
  assert (Hsub : (Ticker <$> validos (values (analizar yf_Ticker g
                    (tickers_de tickers_input max_tickers) w).1))
                 `sublist_of` primeras (tickers_de tickers_input max_tickers)).
  { replace (primeras (tickers_de tickers_input max_tickers))
      with ((analizar yf_Ticker g (tickers_de tickers_input max_tickers) w).1).*1.
    2:{ rewrite analizar_traza. cbn [fst]. now rewrite dict_de_claves, traza_claves. }
    apply validos_sublista. intros k r Hin.
    apply analizar_entradas in Hin as (_ & w' & Hr).
    symmetry in Hr. destruct (obtener_exito _ _ _ _ _ Hr) as (? & ? & _ & _ & ->).
    reflexivity. }
  split; [exact Hsub|]. split; [|split].
  - exact (sublist_NoDup _ _ (primeras_NoDup _) Hsub).
  - rewrite Hval. cbn. lia.
  - apply sublist_length in Hsub. rewrite length_fmap in Hsub.
    pose proof (primeras_length (tickers_de tickers_input max_tickers)).
    pose proof (tickers_de_longitud tickers_input max_tickers).
    lia.
Qed.

(** X13. When no call fails, the table has exactly one row for each distinct
    ticker, in the order of the first occurrences. *)
Theorem sin_fallos_tabla_completa (rf_pct rm_pct tc_pct : Q) (tickers_input : string)
    (max_tickers : nat) (w : mundo) :
  let g := {| Rf := (rf_pct / 100)%Q; Rm := (rm_pct / 100)%Q; Tc := (tc_pct / 100)%Q |} in
  let tickers := tickers_de tickers_input max_tickers in
  tickers ≠ [] →
  (∀ (t : string) (w' : mundo), t ∈ tickers →
     tiene_error (obtener_datos_financieros yf_Ticker g t w').1 = false) →
  ∃ df : list Registro,
    (main yf_Ticker rf_pct rm_pct tc_pct tickers_input max_tickers w).1 = Tabla df ∧
    Ticker <$> df = primeras tickers.
Proof.
  intros g tickers Hne Hok. unfold main. fold g tickers.
  destruct tickers as [|t0 l] eqn:Ht; [contradiction|]. rewrite <- Ht in *.
  cbn [fst].
  assert (Hfilas : Ticker <$> validos (values (analizar yf_Ticker g tickers w).1)
                   = primeras tickers).
  { rewrite validos_todos_exito.
    - rewrite analizar_traza. cbn [fst]. now rewrite dict_de_claves, traza_claves.
    - intros k v Hin. apply analizar_entradas in Hin as (Hk & w' & ->).
      specialize (Hok k w' Hk).
      destruct (obtener_datos_financieros yf_Ticker g k w').1 as [r|] eqn:Hr;
        [|discriminate].
      exists r. split; [reflexivity|].
      destruct (obtener_exito _ _ _ _ _ Hr) as (? & ? & _ & _ & ->). reflexivity. }
  unfold mostrar.
  destruct (analizar yf_Ticker g tickers w).1 as [|x res] eqn:Hres.
  - rewrite Ht in Hfilas. discriminate.
  - destruct (validos _) as [|r0 df0] eqn:Hval.
    + rewrite Ht in Hfilas. discriminate.
    + eexists. split; [reflexivity|exact Hfilas].
Qed.

Lemma validos_y_fallos (datos : list TickerResult) :
  length (validos datos) + length (filter (λ d, tiene_error d = true) datos)
  = length datos.
Proof.
  induction datos as [|d datos IH]; [reflexivity|].
  destruct d; cbn [validos length].
  - rewrite filter_cons_False by (cbn; discriminate). lia.
  - rewrite filter_cons_True by reflexivity. cbn [length]. lia.
Qed.

(** X14. No ticker is lost: every ticker of the list has an entry in the
    result dict, which is the result of a call for that ticker, and the
    records and the failure records together are as many as the distinct
    tickers. *)
Theorem ninguno_se_pierde (g : Parametros) (tickers : list string) (w : mundo) :
  let resultados := (analizar yf_Ticker g tickers w).1 in
  (∀ t : string, t ∈ tickers →
     ∃ v : TickerResult,
       dict_lookup t resultados = Some v ∧
       ∃ w' : mundo, v = (obtener_datos_financieros yf_Ticker g t w').1) ∧
  length (validos (values resultados))
  + length (filter (λ d, tiene_error d = true) (values resultados))
  = length (primeras tickers).
Proof.
  intros resultados. split.
  - intros t Ht.
    assert (Hin : t ∈ resultados.*1).
    { subst resultados. rewrite analizar_traza. cbn [fst].
      rewrite dict_de_claves, traza_claves. now apply primeras_elem. }
    apply list_elem_of_fmap in Hin as ([k v] & -> & Hin). cbn [fst].
    exists v. split.
    + apply dict_lookup_elem; [|exact Hin].
      subst resultados. rewrite analizar_traza. cbn [fst].
      rewrite dict_de_claves. apply primeras_NoDup.
    + now apply analizar_entradas in Hin as [_ Hw].
  - rewrite validos_y_fallos. unfold values. rewrite length_fmap.
    rewrite <- (length_fmap fst). subst resultados.
    rewrite analizar_traza. cbn [fst]. now rewrite dict_de_claves, traza_claves.
Qed.

End Mas_propiedades.

(** ** The further properties on concrete data *)


Lemma fallo_de_obtener_witness :
  (proveedor_ejemplo "BAD" tt).1
  = Lanza (ErrorProveedor "No data found, symbol may be delisted") ∧
  tiene_error
    (obtener_datos_financieros proveedor_ejemplo parametros_iniciales "BAD" tt).1
  = true.
Proof.
  assert (H1 : (proveedor_ejemplo "BAD" tt).1
               = Lanza (ErrorProveedor "No data found, symbol may be delisted"))
    by reflexivity.
  split; [exact H1|].
  apply (proj1 (fallo_de_obtener proveedor_ejemplo parametros_iniciales "BAD" tt)).
  left. eexists. exact H1.
Defined.

Lemma registro_sin_info_witness :
  ∃ r : Registro,
    (obtener_datos_financieros (proveedor_fijo sin_datos) parametros_iniciales
       "XYZ" tt).1 = Exito r ∧
    Ticker r = "XYZ" ∧ Nombre r = "XYZ" ∧ Sector r = "N/D".
Proof.
  destruct (registro_sin_info (proveedor_fijo sin_datos) parametros_iniciales
              "XYZ" tt sin_datos eq_refl eq_refl eq_refl)
    as (r & Hr & Ht & Hn & Hs & _).
  exists r. repeat split; assumption.
Defined.

Lemma aviso_sin_tickers_witness :
  en_blanco " , ," = true ∧
  (main proveedor_caido 4.35 8.5 21 " , ," 50 tt).1 = Advertencia.
Proof.
  assert (H : en_blanco " , ," = true) by reflexivity.
  split; [exact H|].
  apply (proj1 (aviso_sin_tickers proveedor_caido 4.35 8.5 21 " , ," 50 tt)).
  right. exact H.
Defined.

Lemma filas_de_la_tabla_witness :
  ∃ df : list Registro,
    (main proveedor_ejemplo 4.35 8.5 21 "good, bad, good2, GOOD" 50 tt).1 = Tabla df ∧
    (Ticker <$> df)
      `sublist_of` primeras (tickers_de "good, bad, good2, GOOD" 50) ∧
    NoDup (Ticker <$> df) ∧ 0 < length df ∧ length df ≤ 50.
Proof.
  destruct (main proveedor_ejemplo 4.35 8.5 21 "good, bad, good2, GOOD" 50 tt).1
    as [| |df|] eqn:Hm; try (vm_compute in Hm; discriminate).
  exists df. split; [reflexivity|].
  exact (filas_de_la_tabla proveedor_ejemplo 4.35 8.5 21 "good, bad, good2, GOOD"
           50 tt df Hm).
Defined.

Lemma sin_fallos_tabla_completa_witness :
  tickers_de entrada_repetida 50 ≠ [] ∧
  ∃ df : list Registro,
    (main (proveedor_fijo solo_patrimonio) 4.35 8.5 21 entrada_repetida 50 tt).1
    = Tabla df ∧
    Ticker <$> df = primeras (tickers_de entrada_repetida 50).
Proof.
  assert (H : tickers_de entrada_repetida 50 ≠ []) by (vm_compute; discriminate).
  split; [exact H|].
  apply (sin_fallos_tabla_completa (proveedor_fijo solo_patrimonio) 4.35 8.5 21
           entrada_repetida 50 tt H).
  intros t [] _.
  rewrite (obtener_con_datos (proveedor_fijo solo_patrimonio) _ t tt
             solo_patrimonio eq_refl).
  reflexivity.
Defined.

Lemma ninguno_se_pierde_witness :
  "BAD" ∈ ["GOOD"; "BAD"; "GOOD2"] ∧
  ∃ v : TickerResult,
    dict_lookup "BAD"
      (analizar proveedor_ejemplo parametros_iniciales ["GOOD"; "BAD"; "GOOD2"] tt).1
    = Some v.
Proof.
  assert (H : "BAD" ∈ ["GOOD"; "BAD"; "GOOD2"])
    by (apply (bool_decide_unpack _); vm_compute; exact I).
  split; [exact H|].
  destruct (proj1 (ninguno_se_pierde proveedor_ejemplo parametros_iniciales
                     ["GOOD"; "BAD"; "GOOD2"] tt) "BAD" H) as (v & Hv & _).
  now exists v.
Defined.

(** X15. With a debt that is not zero the cost of debt is the interest
    expense over the debt; with an EBT that is not zero the tax rate is
    the income tax expense over EBT (not the default 0.21), and the NOPAT
    is EBIT times one minus that rate. *)
Theorem kd_y_tasa_efectiva (d : RawFinancials) (c : Calculo) :
  calcular_cuerpo d = Devuelve c →
  (¬ (deuda_total c == 0)%Q → (kd c * deuda_total c == gastos_intereses c)%Q) ∧
  (¬ (ebt c == 0)%Q →
     (tasa_impuestos c * ebt c == impuestos c)%Q ∧
     (nopat c == ebit c * (1 - impuestos c / ebt c))%Q).
Proof.
  intros Hc.
  pose proof (calcular_cuerpo_spec d) as Hspec. cbv zeta in Hspec.
  rewrite Hc in Hspec.
  destruct (distinto_de_cero _ || _); [|discriminate].
  injection Hspec as ->.
  cbn [kd deuda_total gastos_intereses tasa_impuestos ebt impuestos nopat ebit].
  split.
  - intros Hn0. unfold cociente_o. rewrite (distinto_de_cero_true _ Hn0).
    field. exact Hn0.
  - intros Hn0. unfold cociente_o. rewrite (distinto_de_cero_true _ Hn0).
    split; [field; exact Hn0|reflexivity].
Qed.

Lemma kd_y_tasa_efectiva_witness :
  ∃ c : Calculo,
    calcular_cuerpo con_deuda = Devuelve c ∧
    (kd c * deuda_total c == gastos_intereses c)%Q ∧
    (tasa_impuestos c * ebt c == impuestos c)%Q.
Proof.
  destruct (calcular_cuerpo con_deuda) as [e|c] eqn:Hc;
    [vm_compute in Hc; discriminate|].
  exists c. split; [reflexivity|].
  assert (Hc' := Hc). vm_compute in Hc'. injection Hc' as <-.
  destruct (kd_y_tasa_efectiva con_deuda _ Hc) as [Hkd Htasa].
  split.
  - apply Hkd. vm_compute. discriminate.
  - apply Htasa. vm_compute. discriminate.
Defined.
